(** * FluentPython, chapters 1 and 3: shallow embedding of the notebook code

    The code lives in the notebook
    [Chapter 1 - The Python Data Model-checkpoint.ipynb]:
    - [FrenchDeck], [Card] and [spades_high] (card-deck sequence wrapper);
    - [Vector] (2D vector with operator overloading);
    - Examples 3-2, 3-4 and 3-5 ([index] built with [dict.get],
      [dict.setdefault] and [collections.defaultdict(list)]);
    - Example 3-6, [StrKeyDict(collections.UserDict)].

    Python's built-ins the code relies on ([dict], [UserDict],
    [MutableMapping], [list]) are modelled after CPython 3.5 (the kernel
    recorded in the notebook metadata). *)

From Stdlib Require Import ZArith Lia Reals Lra Ascii String Sorted.
From stdpp Require Import base gmap list strings countable pretty.

Open Scope string_scope.

(* ================================================================== *)
(** ** Python values and exceptions *)

(** The keys used with [StrKeyDict]: strings, integers and [None]. *)
Inductive pyval :=
  | VStr (s : string)
  | VInt (z : Z)
  | VNone.

Global Instance pyval_eq_dec : EqDecision pyval.
Proof. solve_decision. Defined.

Definition pyval_enc (v : pyval) : string + (Z + unit) :=
  match v with
  | VStr s => inl s
  | VInt z => inr (inl z)
  | VNone => inr (inr tt)
  end.

Definition pyval_dec (e : string + (Z + unit)) : pyval :=
  match e with
  | inl s => VStr s
  | inr (inl z) => VInt z
  | inr (inr _) => VNone
  end.

Global Instance pyval_countable : Countable pyval.
Proof.
  apply (inj_countable' pyval_enc pyval_dec). by intros [].
Defined.

(** [str(v)] *)
Definition py_str (v : pyval) : string :=
  match v with
  | VStr s => s
  | VInt z => pretty z
  | VNone => "None"
  end.

(** [isinstance(v, str)] *)
Definition is_str (v : pyval) : bool :=
  match v with VStr _ => true | _ => false end.

Inductive pyexc :=
  | KeyError (k : pyval)
  | IndexError
  | ValueError
  | RecursionError.

(** Outcome of a Python call: a returned value or a raised exception. *)
Inductive outcome (A : Type) :=
  | Ret (a : A)
  | Raise (e : pyexc).
Arguments Ret {A} a.
Arguments Raise {A} e.

Global Instance pyexc_eq_dec : EqDecision pyexc.
Proof. solve_decision. Defined.

Global Instance outcome_eq_dec {A} `{EqDecision A} : EqDecision (outcome A).
Proof. solve_decision. Defined.

(** CPython's default recursion limit ([sys.getrecursionlimit()]). *)
Definition recursion_limit : nat := 1000.

(* ================================================================== *)
(** ** Example 3-6: [StrKeyDict]

<<
class StrKeyDict(collections.UserDict):
    def __missing__(self, key):
        if isinstance(key, str):
            raise KeyError(key)
        return self[str(key)]
    def __contains__(self, key):
        return str(key) in self.data
    def __setitem__(self, key, item):
        self.data[str(key)] = item
>>
    The instance's only state is [self.data], a plain [dict] whose keys
    may in principle be any hashable value. *)
Module StrKey.

Record StrKeyDict := mkStrKeyDict { data : gmap pyval pyval }.

Definition empty : StrKeyDict := mkStrKeyDict ∅.

(** [StrKeyDict.__missing__], given the [self[...]] it re-enters. *)
Definition __missing__ (getitem : StrKeyDict -> pyval -> outcome pyval)
    (self : StrKeyDict) (key : pyval) : outcome pyval :=
  if is_str key then Raise (KeyError key)
  else getitem self (VStr (py_str key)).

(** [UserDict.__getitem__] (CPython 3.5):
<<
    def __getitem__(self, key):
        if key in self.data:
            return self.data[key]
        if hasattr(self.__class__, "__missing__"):
            return self.__class__.__missing__(self, key)
        raise KeyError(key)
>>
    [fuel] counts the nested [__getitem__] frames still allowed before
    Python raises [RecursionError]. *)
Fixpoint getitem_fuel (fuel : nat) (self : StrKeyDict) (key : pyval)
    : outcome pyval :=
  match fuel with
  | O => Raise RecursionError
  | S fuel' =>
      match data self !! key with
      | Some v => Ret v
      | None => __missing__ (getitem_fuel fuel') self key
      end
  end.

(** [self[key]] *)
Definition __getitem__ (self : StrKeyDict) (key : pyval) : outcome pyval :=
  getitem_fuel recursion_limit self key.

(** [StrKeyDict.__contains__]: [str(key) in self.data]. *)
Definition __contains__ (self : StrKeyDict) (key : pyval) : bool :=
  match data self !! VStr (py_str key) with
  | Some _ => true
  | None => false
  end.

(** [StrKeyDict.__setitem__]: [self.data[str(key)] = item]. *)
Definition __setitem__ (self : StrKeyDict) (key item : pyval) : StrKeyDict :=
  mkStrKeyDict (<[VStr (py_str key) := item]> (data self)).

(** [MutableMapping.update] with an iterable of pairs (also what
    [UserDict.__init__] calls with its argument and keyword arguments):
    [for key, value in other: self[key] = value]. *)
Definition update (self : StrKeyDict) (other : list (pyval * pyval))
    : StrKeyDict :=
  fold_left (fun d kv => __setitem__ d kv.1 kv.2) other self.

(** [UserDict.__delitem__]: [del self.data[key]] (the raw key). *)
Definition __delitem__ (self : StrKeyDict) (key : pyval)
    : outcome unit * StrKeyDict :=
  match data self !! key with
  | Some _ => (Ret tt, mkStrKeyDict (delete key (data self)))
  | None => (Raise (KeyError key), self)
  end.

(** [MutableMapping.setdefault]:
<<
    def setdefault(self, key, default=None):
        try:
            return self[key]
        except KeyError:
            self[key] = default
        return default
>> *)
Definition setdefault (self : StrKeyDict) (key default : pyval)
    : outcome pyval * StrKeyDict :=
  match __getitem__ self key with
  | Ret v => (Ret v, self)
  | Raise (KeyError _) => (Ret default, __setitem__ self key default)
  | Raise e => (Raise e, self)
  end.

(** [MutableMapping.clear]: pops items until the mapping is empty. *)
Definition clear (self : StrKeyDict) : StrKeyDict := mkStrKeyDict ∅.

(** The operations a program performs on an instance. *)
Inductive op :=
  | Construct (args : list (pyval * pyval))   (* StrKeyDict(args) *)
  | SetItem (key item : pyval)                (* d[key] = item *)
  | Update (other : list (pyval * pyval))     (* d.update(other) *)
  | DelItem (key : pyval)                     (* del d[key] *)
  | SetDefault (key default : pyval)          (* d.setdefault(key, default) *)
  | Clear.                                    (* d.clear() *)

(** The instance bound to [d] after one statement; a raised exception
    leaves the instance as the statement left it. *)
Definition run_op (d : StrKeyDict) (o : op) : StrKeyDict :=
  match o with
  | Construct args => update empty args
  | SetItem k v => __setitem__ d k v
  | Update other => update d other
  | DelItem k => (__delitem__ d k).2
  | SetDefault k v => (setdefault d k v).2
  | Clear => clear d
  end.

Definition run_ops (ops : list op) : StrKeyDict := fold_left run_op ops empty.

End StrKey.

(* ================================================================== *)
(** ** Examples 3-2, 3-4 and 3-5: the word index

    The three scripts read the lines of a file, find the words of each
    line with [WORD_RE = re.compile('\w+')] and record, for every word,
    the list of its [(line_no, column_no)] locations in a dict [index];
    they then print [word, index[word]] for the words in
    [sorted(index, key=str.upper)].

    Lists are mutable objects shared between the dict and the local
    variables, so the model keeps a heap of list objects: the dict maps
    a word to an object id and the heap maps an id to the list's items.
    The dict is an association list in insertion order (the order in
    which [sorted] receives the keys). Text is ASCII: [\w] matches
    letters, digits and [_]. *)
Module Index.

Definition loc := (nat * nat)%type.

Record IxState := mkIxState {
  index : list (string * nat);      (* word -> id of its list object *)
  heap : gmap nat (list loc);       (* id -> items of the list *)
  next_id : nat                     (* id of the next allocated list *)
}.

Definition init : IxState := mkIxState [] ∅ 0.

(** A statement: reads and updates the state, may raise. *)
Definition M (A : Type) : Type := IxState -> outcome A * IxState.

Global Instance M_ret : MRet M := fun A a st => (Ret a, st).
Global Instance M_bind : MBind M := fun A B f m st =>
  match m st with
  | (Ret a, st') => f a st'
  | (Raise e, st') => (Raise e, st')
  end.

Definition raise {A} (e : pyexc) : M A := fun st => (Raise e, st).

(** [[]]: a fresh empty list object. *)
Definition new_list : M nat := fun st =>
  (Ret (next_id st),
   mkIxState (index st) (<[next_id st := []]> (heap st)) (S (next_id st))).

(** Reading the items of a list object. *)
Definition read_list (p : nat) : M (list loc) := fun st =>
  match heap st !! p with
  | Some l => (Ret l, st)
  | None => (Raise (KeyError (VInt (Z.of_nat p))), st)   (* dangling id *)
  end.

(** [occurrences.append(location)] *)
Definition list_append (p : nat) (x : loc) : M unit := fun st =>
  match heap st !! p with
  | Some l => (Ret tt, mkIxState (index st) (<[p := (l ++ [x])%list]> (heap st))
                                 (next_id st))
  | None => (Raise (KeyError (VInt (Z.of_nat p))), st)   (* dangling id *)
  end.

(** Dict lookup on the association list. *)
Fixpoint assoc_lookup (w : string) (ix : list (string * nat)) : option nat :=
  match ix with
  | [] => None
  | (w', p) :: ix' => if String.eqb w w' then Some p else assoc_lookup w ix'
  end.

(** Dict store: an existing key keeps its position, a new key goes last. *)
Fixpoint assoc_store (w : string) (p : nat) (ix : list (string * nat))
    : list (string * nat) :=
  match ix with
  | [] => [(w, p)]
  | (w', p') :: ix' =>
      if String.eqb w w' then (w', p) :: ix' else (w', p') :: assoc_store w p ix'
  end.

(** [index.get(word, default)] *)
Definition dict_get (w : string) (default : nat) : M nat := fun st =>
  match assoc_lookup w (index st) with
  | Some p => (Ret p, st)
  | None => (Ret default, st)
  end.

(** [index[word] = value] *)
Definition dict_setitem (w : string) (p : nat) : M unit := fun st =>
  (Ret tt, mkIxState (assoc_store w p (index st)) (heap st) (next_id st)).

(** [index[word]] on a plain dict *)
Definition dict_getitem (w : string) : M nat := fun st =>
  match assoc_lookup w (index st) with
  | Some p => (Ret p, st)
  | None => (Raise (KeyError (VStr w)), st)
  end.

(** [index.setdefault(word, default)] *)
Definition dict_setdefault (w : string) (default : nat) : M nat :=
  fun st =>
  match assoc_lookup w (index st) with
  | Some p => (Ret p, st)
  | None => (dict_setitem w default;; mret default) st
  end.

(** [index[word]] on [collections.defaultdict(list)]: on a missing key,
    [__missing__] calls [list()], stores the new list and returns it. *)
Definition dd_getitem (w : string) : M nat := fun st =>
  match assoc_lookup w (index st) with
  | Some p => (Ret p, st)
  | None => (p ← new_list; dict_setitem w p;; mret p) st
  end.

(** [WORD_RE.finditer(line)]: the maximal runs of word characters, with
    their start offsets. *)
Definition is_word_char (c : ascii) : bool :=
  let n := Ascii.nat_of_ascii c in
  (Nat.leb 48 n && Nat.leb n 57) || (Nat.leb 65 n && Nat.leb n 90)
  || (Nat.leb 97 n && Nat.leb n 122) || Nat.eqb n 95.

Fixpoint finditer_go (pos start : nat) (acc : string) (s : string)
    : list (nat * string) :=
  match s with
  | EmptyString => if String.eqb acc "" then [] else [(start, acc)]
  | String c s' =>
      if is_word_char c then
        if String.eqb acc "" then finditer_go (S pos) pos (String c "") s'
        else finditer_go (S pos) start (acc ++ String c "") s'
      else
        (if String.eqb acc "" then [] else [(start, acc)])
          ++ finditer_go (S pos) (S pos) "" s'
  end.

Definition finditer (line : string) : list (nat * string) :=
  finditer_go 0 0 "" line.

(** The loop shared by the three scripts:
<<
    for line_no, line in enumerate(fp, 1):
        for match in WORD_RE.finditer(line):
            word = match.group()
            column_no = match.start()+1
            location = (line_no, column_no)
            <body word location>
>> *)
Fixpoint for_matches (body : string -> loc -> M unit) (line_no : nat)
    (ms : list (nat * string)) : M unit :=
  match ms with
  | [] => mret tt
  | (start, word) :: ms' =>
      body word (line_no, S start);; for_matches body line_no ms'
  end.

Fixpoint for_lines (body : string -> loc -> M unit) (line_no : nat)
    (lines : list string) : M unit :=
  match lines with
  | [] => mret tt
  | line :: lines' =>
      for_matches body line_no (finditer line);; for_lines body (S line_no) lines'
  end.

(** Example 3-2:
<<
            occurrences = index.get(word, [])
            occurrences.append(location)
            index[word] = occurrences
>> *)
Definition body_get (word : string) (location : loc) : M unit :=
  dflt ← new_list;
  occurrences ← dict_get word dflt;
  list_append occurrences location;;
  dict_setitem word occurrences.

(** Example 3-4: [index.setdefault(word, []).append(location)] *)
Definition body_setdefault (word : string) (location : loc) : M unit :=
  dflt ← new_list;
  occurrences ← dict_setdefault word dflt;
  list_append occurrences location.

(** Example 3-5: [index[word].append(location)] on a defaultdict *)
Definition body_default (word : string) (location : loc) : M unit :=
  occurrences ← dd_getitem word;
  list_append occurrences location.

(** [str.upper] and the string order used by [sorted]. *)
Definition upper_char (c : ascii) : ascii :=
  let n := Ascii.nat_of_ascii c in
  if Nat.leb 97 n && Nat.leb n 122 then Ascii.ascii_of_nat (n - 32) else c.

Fixpoint str_upper (s : string) : string :=
  match s with
  | EmptyString => EmptyString
  | String c s' => String (upper_char c) (str_upper s')
  end.

Fixpoint str_leb (s t : string) : bool :=
  match s, t with
  | EmptyString, _ => true
  | String _ _, EmptyString => false
  | String c s', String d t' =>
      let m := Ascii.nat_of_ascii c in
      let n := Ascii.nat_of_ascii d in
      if Nat.ltb m n then true else if Nat.ltb n m then false else str_leb s' t'
  end.

(** [sorted(keys, key=str.upper)]: a stable sort (insertion sort; any
    stable sort gives the same list). *)
Fixpoint insert_by_upper (w : string) (ws : list string) : list string :=
  match ws with
  | [] => [w]
  | w' :: ws' =>
      if str_leb (str_upper w') (str_upper w) then w' :: insert_by_upper w ws'
      else w :: ws
  end.

Definition sorted_upper (ws : list string) : list string :=
  fold_left (fun acc w => insert_by_upper w acc) ws [].

(** [for word in sorted(index, key=str.upper): print(word, index[word])],
    with the [index[word]] of the script's dict. *)
Fixpoint print_loop (getitem : string -> M nat) (ws : list string)
    : M (list (string * list loc)) :=
  match ws with
  | [] => mret []
  | w :: ws' =>
      p ← getitem w;
      l ← read_list p;
      rest ← print_loop getitem ws';
      mret ((w, l) :: rest)
  end.

Definition print_index (getitem : string -> M nat)
    : M (list (string * list loc)) :=
  fun st => print_loop getitem (sorted_upper (map fst (index st))) st.

(** The three scripts on the lines of the input file: the printed lines
    and the final state. *)
Definition example_3_2 (lines : list string) :=
  (for_lines body_get 1 lines;; print_index dict_getitem) init.

Definition example_3_4 (lines : list string) :=
  (for_lines body_setdefault 1 lines;; print_index dict_getitem) init.

Definition example_3_5 (lines : list string) :=
  (for_lines body_default 1 lines;; print_index dd_getitem) init.

(** The index with every list object replaced by its items. *)
Fixpoint resolve_entries (h : gmap nat (list loc)) (ix : list (string * nat))
    : option (list (string * list loc)) :=
  match ix with
  | [] => Some []
  | (w, p) :: ix' =>
      match h !! p, resolve_entries h ix' with
      | Some l, Some r => Some ((w, l) :: r)
      | _, _ => None
      end
  end.

Definition resolve (st : IxState) : option (list (string * list loc)) :=
  resolve_entries (heap st) (index st).

End Index.

(* ================================================================== *)
(** ** Chapter 1: [FrenchDeck] and [spades_high]

<<
Card = collections.namedtuple('Card', ['rank', 'suit'])

class FrenchDeck:
    ranks = [str(n) for n in range(2, 11)] + list('JQKA')
    suits = 'spades diamonds clubs hearts'.split()
    def __init__(self):
        self._cards = [Card(rank, suit) for suit in self.suits for rank in self.ranks]
    def __len__(self):
        return len(self._cards)
    def __getitem__(self, position):
        return self._cards[position]
>> *)
Module Deck.

Record Card := mkCard { rank : string; suit : string }.

Global Instance Card_eq_dec : EqDecision Card.
Proof. solve_decision. Defined.

Definition ranks : list string :=
  map (fun n : nat => pretty n) (seq 2 9) ++ ["J"; "Q"; "K"; "A"].

Definition suits : list string := ["spades"; "diamonds"; "clubs"; "hearts"].

Record FrenchDeck := mkFrenchDeck { _cards : list Card }.

(** [FrenchDeck()] *)
Definition __init__ : FrenchDeck :=
  mkFrenchDeck (suits ≫= fun s => map (fun r => mkCard r s) ranks).

(** A method call on the deck: its outcome and the deck afterwards. *)
Definition DeckM (A : Type) : Type := FrenchDeck -> outcome A * FrenchDeck.

(** [lst[i]] for an integer [i]: negative positions count from the end,
    anything else out of range raises [IndexError]. *)
Definition py_list_getitem {A} (l : list A) (i : Z) : outcome A :=
  let n := Z.of_nat (List.length l) in
  let j := if (i <? 0)%Z then (i + n)%Z else i in
  if ((0 <=? j)%Z && (j <? n)%Z)%bool then
    match l !! Z.to_nat j with
    | Some x => Ret x
    | None => Raise IndexError
    end
  else Raise IndexError.

Definition __len__ : DeckM nat := fun self =>
  (Ret (List.length (_cards self)), self).

(** [__getitem__] with an integer position. *)
Definition __getitem__ (position : Z) : DeckM Card := fun self =>
  (py_list_getitem (_cards self) position, self).

(** [list.index(x)]: the first position of [x], [ValueError] if absent. *)
Fixpoint py_index {A} `{EqDecision A} (x : A) (l : list A) : outcome nat :=
  match l with
  | [] => Raise ValueError
  | y :: l' =>
      if decide (x = y) then Ret 0
      else match py_index x l' with
           | Ret i => Ret (S i)
           | Raise e => Raise e
           end
  end.

(** [suit_values = dict(spades=3, hearts=2, diamonds=1, clubs=0)] *)
Definition suit_values : list (string * Z) :=
  [("spades", 3%Z); ("hearts", 2%Z); ("diamonds", 1%Z); ("clubs", 0%Z)].

Fixpoint dict_lookup (k : string) (d : list (string * Z)) : option Z :=
  match d with
  | [] => None
  | (k', v) :: d' => if String.eqb k k' then Some v else dict_lookup k d'
  end.

(**
<<
def spades_high(card):
    rank_value = FrenchDeck.ranks.index(card.rank)
    return rank_value * len(suit_values) + suit_values[card.suit]
>> *)
Definition spades_high (card : Card) : outcome Z :=
  match py_index (rank card) ranks with
  | Raise e => Raise e
  | Ret rank_value =>
      match dict_lookup (suit card) suit_values with
      | Some v => Ret (Z.of_nat rank_value * Z.of_nat (List.length suit_values) + v)%Z
      | None => Raise (KeyError (VStr (suit card)))
      end
  end.

(** The suit order stated in the chapter's prose (spades highest, then
    hearts, diamonds, clubs). *)
Definition suit_rank_spec (s : string) : Z :=
  if String.eqb s "spades" then 3%Z
  else if String.eqb s "hearts" then 2%Z
  else if String.eqb s "diamonds" then 1%Z
  else 0%Z.

End Deck.

(* ================================================================== *)
(** ** Chapter 1: [Vector]

<<
class Vector:
    def __init__(self, x = 0, y = 0):
        self.x = x
        self.y = y
    def __abs__(self):
        return hypot(self.x, self.y)
    def __bool__(self):
        return bool(abs(self))
    def __add__(self, other):
        x = self.x + other.x
        y = self.y + other.y
        return Vector(x, y)
    def __mul__(self, scalar):
        return Vector(self.x * scalar, self.y * scalar)
>>
    Components are real numbers: Python's exact arithmetic on [int]s is
    the real one, and [hypot] is the Euclidean norm. No method assigns
    to [self] or [other] after [__init__], so a vector is a value. *)
Module Vec.

Record Vector := mkVector { x : R; y : R }.

Definition hypot (a b : R) : R := sqrt (a * a + b * b).

(** [bool(n)] for a number: false exactly on zero. *)
Definition py_bool (r : R) : bool := if Req_EM_T r 0 then false else true.

Definition __abs__ (self : Vector) : R := hypot (x self) (y self).

Definition __bool__ (self : Vector) : bool := py_bool (__abs__ self).

Definition __add__ (self other : Vector) : Vector :=
  let x' := (x self + x other)%R in
  let y' := (y self + y other)%R in
  mkVector x' y'.

Definition __mul__ (self : Vector) (scalar : R) : Vector :=
  mkVector (x self * scalar) (y self * scalar).

End Vec.

(* ================================================================== *)
(** ** The word index as a value

    What the three scripts are meant to compute, written without list
    objects: each word in first-occurrence order with its locations. *)
Module IndexSpec.
Import Index.

Fixpoint add_location (w : string) (l : loc) (idx : list (string * list loc))
    : list (string * list loc) :=
  match idx with
  | [] => [(w, [l])]
  | (w', ls) :: idx' =>
      if String.eqb w w' then (w', (ls ++ [l])%list) :: idx'
      else (w', ls) :: add_location w l idx'
  end.

Definition add_matches (line_no : nat) (ms : list (nat * string))
    (idx : list (string * list loc)) : list (string * list loc) :=
  fold_left (fun acc m => add_location m.2 (line_no, S m.1) acc) ms idx.

Fixpoint add_lines (line_no : nat) (lines : list string)
    (idx : list (string * list loc)) : list (string * list loc) :=
  match lines with
  | [] => idx
  | line :: lines' => add_lines (S line_no) lines' (add_matches line_no (finditer line) idx)
  end.

Definition word_index (lines : list string) : list (string * list loc) :=
  add_lines 1 lines [].

Fixpoint find_locations (w : string) (idx : list (string * list loc))
    : list loc :=
  match idx with
  | [] => []
  | (w', ls) :: idx' => if String.eqb w w' then ls else find_locations w idx'
  end.

(** The printed lines: [word, index[word]] in [sorted(..., key=str.upper)]
    order. *)
Definition printed (idx : list (string * list loc)) : list (string * list loc) :=
  map (fun w => (w, find_locations w idx)) (sorted_upper (map fst idx)).

End IndexSpec.

(* ================================================================== *)
(** ** Chapter 1: the deck as a Python sequence

    The notebook cells that follow [FrenchDeck] use it through Python's
    sequence protocol: slicing ([deck[:3]], [deck[12::13]]), iteration
    ([for card in deck]), [reversed(deck)], [in] and
    [sorted(deck, key=spades_high)]. [FrenchDeck] defines neither
    [__iter__], [__reversed__] nor [__contains__], so CPython falls back on
    [__getitem__] with positions 0, 1, 2, ... until [IndexError]. *)
Module DeckSeq.
Import Deck.

(** [PySlice_Unpack] followed by [PySlice_AdjustIndices]: the first
    position and the number of items of [l[start:stop:step]] ([step <> 0]). *)
Definition slice_bound (len : Z) (x : option Z) (step : Z) (dflt : Z) : Z :=
  match x with
  | None => dflt
  | Some v =>
      if (v <? 0)%Z then
        (if (v + len <? 0)%Z then (if (step <? 0)%Z then (-1)%Z else 0%Z) else (v + len)%Z)
      else if (len <=? v)%Z then (if (step <? 0)%Z then (len - 1)%Z else len)
      else v
  end.

Definition slice_length (start stop step : Z) : Z :=
  if (step <? 0)%Z then
    (if (stop <? start)%Z then ((start - stop - 1) / (- step) + 1)%Z else 0%Z)
  else
    (if (start <? stop)%Z then ((stop - start - 1) / step + 1)%Z else 0%Z).

Fixpoint slice_items {A} (l : list A) (n : nat) (i step : Z) : list A :=
  match n with
  | O => []
  | S n' =>
      match l !! Z.to_nat i with
      | Some x => x :: slice_items l n' (i + step)%Z step
      | None => []
      end
  end.

(** [lst[start:stop:step]] *)
Definition py_list_slice {A} (l : list A) (start stop : option Z)
    (step : option Z) : outcome (list A) :=
  let st := match step with Some s => s | None => 1%Z end in
  if (st =? 0)%Z then Raise ValueError
  else
    let len := Z.of_nat (List.length l) in
    let b := slice_bound len start st (if (st <? 0)%Z then (len - 1)%Z else 0%Z) in
    let e := slice_bound len stop st (if (st <? 0)%Z then (-1)%Z else len) in
    Ret (slice_items l (Z.to_nat (slice_length b e st)) b st).

(** [FrenchDeck.__getitem__] with a slice: [self._cards[position]]. *)
Definition __getitem_slice__ (start stop step : option Z) : DeckM (list Card) :=
  fun self => (py_list_slice (_cards self) start stop step, self).

(** [for card in deck]: the old sequence iteration protocol.
    [fuel] bounds the number of [__getitem__] calls ([None]: more needed). *)
Fixpoint seq_iter (fuel : nat) (i : nat) (self : FrenchDeck)
    : option (outcome (list Card)) :=
  match fuel with
  | O => None
  | S fuel' =>
      let '(r, self') := __getitem__ (Z.of_nat i) self in
      match r with
      | Ret c =>
          match seq_iter fuel' (S i) self' with
          | Some (Ret cs) => Some (Ret (c :: cs))
          | other => other
          end
      | Raise IndexError => Some (Ret [])
      | Raise e => Some (Raise e)
      end
  end.

(** [reversed(deck)]: positions [len(deck) - 1] down to [0]; an
    [IndexError] ends the iteration. *)
Fixpoint reversed_from (k : nat) (self : FrenchDeck) : outcome (list Card) :=
  match k with
  | O => Ret []
  | S k' =>
      let '(r, self') := __getitem__ (Z.of_nat k') self in
      match r with
      | Ret c =>
          match reversed_from k' self' with
          | Ret cs => Ret (c :: cs)
          | Raise e => Raise e
          end
      | Raise IndexError => Ret []
      | Raise e => Raise e
      end
  end.

Definition py_reversed (self : FrenchDeck) : outcome (list Card) :=
  let '(r, self') := __len__ self in
  match r with
  | Ret n => reversed_from n self'
  | Raise e => Raise e
  end.

(** [x in deck]: [_PySequence_IterSearch], a scan of the iteration. *)
Fixpoint seq_contains (fuel : nat) (i : nat) (x : Card) (self : FrenchDeck)
    : option (outcome bool) :=
  match fuel with
  | O => None
  | S fuel' =>
      let '(r, self') := __getitem__ (Z.of_nat i) self in
      match r with
      | Ret c => if decide (c = x) then Some (Ret true)
                 else seq_contains fuel' (S i) x self'
      | Raise IndexError => Some (Ret false)
      | Raise e => Some (Raise e)
      end
  end.

(** [sorted(items, key=key)]: all keys are computed first (an exception
    propagates), then a stable sort on the keys. *)
Fixpoint keyed {A} (key : A -> outcome Z) (l : list A) : outcome (list (Z * A)) :=
  match l with
  | [] => Ret []
  | x :: l' =>
      match key x with
      | Raise e => Raise e
      | Ret k =>
          match keyed key l' with
          | Ret kl => Ret ((k, x) :: kl)
          | Raise e => Raise e
          end
      end
  end.

Fixpoint insert_keyed {A} (kx : Z * A) (l : list (Z * A)) : list (Z * A) :=
  match l with
  | [] => [kx]
  | ky :: l' => if (ky.1 <=? kx.1)%Z then ky :: insert_keyed kx l' else kx :: l
  end.

Definition py_sorted {A} (key : A -> outcome Z) (l : list A) : outcome (list A) :=
  match keyed key l with
  | Ret kl => Ret (map snd (fold_left (fun acc kx => insert_keyed kx acc) kl []))
  | Raise e => Raise e
  end.

(** Keyed items in non-decreasing order of their keys. *)
Definition key_sorted {A} (kl : list (Z * A)) : Prop :=
  Sorted (fun a b : Z * A => (a.1 <= b.1)%Z) kl.

End DeckSeq.

(* ================================================================== *)
(** ** Example 3-6, continued: methods [StrKeyDict] inherits

<<
    # UserDict
    def __len__(self): return len(self.data)
    # Mapping
    def get(self, key, default=None):
        try:
            return self[key]
        except KeyError:
            return default
>> *)
Module StrKeyMore.
Import StrKey.

Definition __len__ (self : StrKeyDict) : nat := size (data self).

Definition get (self : StrKeyDict) (key default : pyval) : outcome pyval :=
  match __getitem__ self key with
  | Ret v => Ret v
  | Raise (KeyError _) => Ret default
  | Raise e => Raise e
  end.

(** The value the last pair with string form [s] gives, if any. *)
Definition last_value (s : string) (pairs : list (pyval * pyval)) : option pyval :=
  fold_left (fun acc kv => if String.eqb (py_str kv.1) s then Some kv.2 else acc)
    pairs None.

End StrKeyMore.

(* ================================================================== *)
(** ** Example 3-1: dict comprehensions

<<
DIAL_CODES = [(86, 'China'), (91, 'India'), (1, 'United States'),
              (62, 'Indonesia'), (55, 'Brazil'), (92, 'Pakistan'),
              (880, 'Bangladesh'), (234, 'Nigeria'), (7, 'Russia'),
              (81, 'Japan')]
country_code = {country: code for code, country in DIAL_CODES}
{code: country.upper() for country, code in country_code.items() if code < 66}
>>
    A dict is an association list in insertion order: storing an
    existing key replaces its value in place. *)
Module DictComp.

Fixpoint dict_store {K V} `{EqDecision K} (k : K) (v : V) (d : list (K * V))
    : list (K * V) :=
  match d with
  | [] => [(k, v)]
  | (k', v') :: d' => if decide (k = k') then (k', v) :: d' else (k', v') :: dict_store k v d'
  end.

Fixpoint dict_find {K V} `{EqDecision K} (k : K) (d : list (K * V)) : option V :=
  match d with
  | [] => None
  | (k', v) :: d' => if decide (k = k') then Some v else dict_find k d'
  end.

Definition DIAL_CODES : list (Z * string) :=
  [(86, "China"); (91, "India"); (1, "United States"); (62, "Indonesia");
   (55, "Brazil"); (92, "Pakistan"); (880, "Bangladesh"); (234, "Nigeria");
   (7, "Russia"); (81, "Japan")]%Z.

(** [{country: code for code, country in pairs}] *)
Definition country_code_of (pairs : list (Z * string)) : list (string * Z) :=
  fold_left (fun d '(code, country) => dict_store country code d) pairs [].

(** [{code: country.upper() for country, code in cc.items() if code < 66}] *)
Definition upper_below_66 (cc : list (string * Z)) : list (Z * string) :=
  fold_left (fun d '(country, code) =>
               if (code <? 66)%Z then dict_store code (Index.str_upper country) d else d)
    cc [].

Definition country_code : list (string * Z) := country_code_of DIAL_CODES.

End DictComp.

(* ================================================================== *)
(** * Proofs *)

(* ------------------------------------------------------------------ *)
(** ** [StrKeyDict] *)
Module StrKeyFacts.
Import StrKey.

(** Keys stored in [self.data] are strings. *)
Definition str_keyed (d : StrKeyDict) : Prop :=
  forall k v, data d !! k = Some v -> is_str k = true.

(** Two nested [__getitem__] frames always suffice. *)
Lemma getitem_fuel_SS n d k :
  getitem_fuel (S (S n)) d k =
    match data d !! k with
    | Some v => Ret v
    | None =>
        if is_str k then Raise (KeyError k)
        else match data d !! VStr (py_str k) with
             | Some v => Ret v
             | None => Raise (KeyError (VStr (py_str k)))
             end
    end.
Proof.
  simpl. unfold __missing__.
  destruct (data d !! k); [done|].
  destruct (is_str k); [done|].
  simpl. by destruct (data d !! VStr (py_str k)).
Qed.

Lemma getitem_closed d k :
  __getitem__ d k = getitem_fuel 2 d k.
Proof.
  unfold __getitem__, recursion_limit. rewrite !getitem_fuel_SS. done.
Qed.

Lemma setitem_str_keyed d k v : str_keyed d -> str_keyed (__setitem__ d k v).
Proof.
  intros Hd k' v'. simpl. destruct (decide (k' = VStr (py_str k))) as [->|Hne].
  - done.
  - rewrite lookup_insert_ne; [|done]. apply Hd.
Qed.

Lemma update_str_keyed other : forall d, str_keyed d -> str_keyed (update d other).
Proof.
  induction other as [|[k v] other IH]; intros d Hd; simpl; [done|].
  apply IH. by apply setitem_str_keyed.
Qed.

Lemma empty_str_keyed : str_keyed empty.
Proof. intros k v. simpl. by rewrite lookup_empty. Qed.

Lemma run_op_str_keyed d o : str_keyed d -> str_keyed (run_op d o).
Proof.
  intros Hd. destruct o as [args|k v|other|k|k v|]; simpl.
  - apply update_str_keyed, empty_str_keyed.
  - by apply setitem_str_keyed.
  - by apply update_str_keyed.
  - unfold __delitem__. destruct (data d !! k); simpl; [|done].
    intros k' v'. simpl. destruct (decide (k' = k)) as [->|Hne].
    + by rewrite lookup_delete_eq.
    + rewrite lookup_delete_ne; [|done]. apply Hd.
  - unfold setdefault. destruct (__getitem__ d k) as [|[]]; simpl; try done.
    by apply setitem_str_keyed.
  - intros k' v'. simpl. by rewrite lookup_empty.
Qed.

Lemma run_ops_str_keyed ops : str_keyed (run_ops ops).
Proof.
  unfold run_ops. generalize empty empty_str_keyed.
  induction ops as [|o ops IH]; intros d Hd; simpl; [done|].
  apply IH. by apply run_op_str_keyed.
Qed.

(** A non-string key is never itself a key of a string-keyed [data]. *)
Lemma str_keyed_nonstr d k :
  str_keyed d -> is_str k = false -> data d !! k = None.
Proof.
  intros Hd Hk. destruct (data d !! k) eqn:E; [|done].
  apply Hd in E. congruence.
Qed.

(** Claim C8: every key of [d.data] is a [str], after any sequence of
    construction, item assignment, update (and deletion, [setdefault],
    [clear]) performed through the class. *)
Theorem data_keys_are_str (ops : list op) (k v : pyval) :
  data (run_ops ops) !! k = Some v -> exists s, k = VStr s.
Proof.
  intros H. apply run_ops_str_keyed in H. destruct k; simpl in H; try done.
  eauto.
Qed.

Lemma data_keys_are_str_witness :
  data (run_ops [Construct [(VInt 13, VNone)]; SetItem VNone (VInt 1)]) !! VStr "None"
    = Some (VInt 1) /\
  exists s, VStr "None" = VStr s.
Proof.
  split; [reflexivity|].
  apply (data_keys_are_str [Construct [(VInt 13, VNone)]; SetItem VNone (VInt 1)]
           (VStr "None") (VInt 1)).
  reflexivity.
Defined.

(** Claim C1: on an instance built through the class, looking up a
    non-string key [k] with [str(k)] stored returns [d.data[str(k)]]. *)
Theorem getitem_nonstr_normalizes (ops : list op) (k v : pyval) :
  is_str k = false ->
  data (run_ops ops) !! VStr (py_str k) = Some v ->
  __getitem__ (run_ops ops) k = Ret v.
Proof.
  intros Hk Hv. rewrite getitem_closed, getitem_fuel_SS.
  rewrite (str_keyed_nonstr _ _ (run_ops_str_keyed ops) Hk), Hk, Hv. done.
Qed.

Lemma getitem_nonstr_normalizes_witness :
  is_str (VInt 13) = false /\
  data (run_ops [SetItem (VInt 13) (VStr "LED")]) !! VStr (py_str (VInt 13))
    = Some (VStr "LED") /\
  __getitem__ (run_ops [SetItem (VInt 13) (VStr "LED")]) (VInt 13)
    = Ret (VStr "LED").
Proof.
  split; [reflexivity|]. split; [reflexivity|].
  apply getitem_nonstr_normalizes; reflexivity.
Defined.

(** Claim C4: on an instance built through the class, [d[k]] raises
    [KeyError] exactly when [str(k)] is not a key of [d.data]; for a string
    [k] the first [__getitem__] frame already raises [KeyError(k)]. *)
Theorem getitem_keyerror_iff (ops : list op) (k : pyval) :
  ((exists e, __getitem__ (run_ops ops) k = Raise (KeyError e)) <->
   data (run_ops ops) !! VStr (py_str k) = None) /\
  (is_str k = true -> data (run_ops ops) !! k = None ->
   forall fuel, 1 <= fuel -> getitem_fuel fuel (run_ops ops) k = Raise (KeyError k)).
Proof.
  pose proof (run_ops_str_keyed ops) as Hd.
  split.
  - rewrite getitem_closed, getitem_fuel_SS.
    destruct k as [s|z|]; simpl.
    + destruct (data (run_ops ops) !! VStr s); split; intros H; try done.
      * by destruct H.
      * eauto.
    + rewrite (str_keyed_nonstr _ (VInt z) Hd eq_refl).
      destruct (data (run_ops ops) !! VStr (pretty z)); split; intros H; try done.
      * by destruct H.
      * eauto.
    + rewrite (str_keyed_nonstr _ VNone Hd eq_refl).
      destruct (data (run_ops ops) !! VStr "None"); split; intros H; try done.
      * by destruct H.
      * eauto.
  - intros Hs Hn fuel Hf. destruct fuel as [|fuel]; [lia|].
    simpl. rewrite Hn. unfold __missing__. by rewrite Hs.
Qed.

Lemma getitem_keyerror_iff_witness :
  is_str (VStr "A0") = true /\
  data (run_ops [Construct [(VInt 13, VNone)]]) !! VStr "A0" = None /\
  getitem_fuel 1 (run_ops [Construct [(VInt 13, VNone)]]) (VStr "A0")
    = Raise (KeyError (VStr "A0")).
Proof.
  split; [reflexivity|]. split; [reflexivity|].
  apply (proj2 (getitem_keyerror_iff [Construct [(VInt 13, VNone)]] (VStr "A0")));
    [reflexivity|reflexivity|lia].
Defined.

(** Claim C9: [k in d] is true exactly when [str(k)] is a key of [d.data]
    (a [bool], so it cannot raise); storing under a key makes every key
    with the same string form, such as [1] after storing ['1'], contained. *)
Theorem contains_str_form (d : StrKeyDict) (k : pyval) :
  (__contains__ d k = true <-> is_Some (data d !! VStr (py_str k))) /\
  (forall k' v, py_str k' = py_str k -> __contains__ (__setitem__ d k' v) k = true).
Proof.
  split.
  - unfold __contains__. destruct (data d !! VStr (py_str k)); split; intros H;
      try done; by destruct H.
  - intros k' v Heq. unfold __contains__, __setitem__. simpl.
    rewrite Heq. by rewrite lookup_insert_eq.
Qed.

Lemma contains_str_form_witness :
  py_str (VStr "1") = py_str (VInt 1) /\
  __contains__ (__setitem__ empty (VStr "1") VNone) (VInt 1) = true.
Proof.
  split; [reflexivity|].
  apply (proj2 (contains_str_form empty (VInt 1)) (VStr "1") VNone).
  reflexivity.
Defined.

End StrKeyFacts.

(* ------------------------------------------------------------------ *)
(** ** The word index: list objects, aliasing and the value index *)
Module IndexFacts.
Import Index IndexSpec.

(** Heap well-formedness: each word has its own list object, and every
    object of the dict was allocated before [next_id]. *)
Definition inv (st : IxState) : Prop :=
  NoDup (map snd (index st)) /\ Forall (fun p => p < next_id st) (map snd (index st)).

Lemma resolve_entries_keys h ix idx :
  resolve_entries h ix = Some idx -> map fst idx = map fst ix.
Proof.
  revert idx. induction ix as [|[w p] ix IH]; intros idx H; simpl in H.
  - by injection H as <-.
  - destruct (h !! p), (resolve_entries h ix) eqn:E; try done.
    injection H as <-. simpl. f_equal. by apply IH.
Qed.

Lemma resolve_entries_fresh h ix p l :
  p ∉ map snd ix -> resolve_entries (<[p:=l]> h) ix = resolve_entries h ix.
Proof.
  induction ix as [|[w q] ix IH]; intros Hp; simpl; [done|].
  simpl in Hp. apply not_elem_of_cons in Hp as [Hpq Hp].
  rewrite lookup_insert_ne; [|done]. by rewrite IH.
Qed.

Lemma assoc_lookup_elem w ix p :
  assoc_lookup w ix = Some p -> p ∈ map snd ix.
Proof.
  induction ix as [|[w' q] ix IH]; simpl; [done|].
  destruct (String.eqb w w').
  - intros [= ->]. left.
  - intros H. right. by apply IH.
Qed.

Lemma assoc_lookup_none w ix :
  assoc_lookup w ix = None -> w ∉ map fst ix.
Proof.
  induction ix as [|[w' q] ix IH]; simpl; intros H.
  - apply not_elem_of_nil.
  - destruct (String.eqb w w') eqn:E; [done|].
    apply not_elem_of_cons. split.
    + intros ->. by rewrite String.eqb_refl in E.
    + by apply IH.
Qed.

Lemma assoc_lookup_heap h ix idx w p :
  resolve_entries h ix = Some idx -> assoc_lookup w ix = Some p ->
  h !! p = Some (find_locations w idx).
Proof.
  revert idx. induction ix as [|[w' q] ix IH]; intros idx Hr Hl; simpl in *; [done|].
  destruct (h !! q) eqn:Eq, (resolve_entries h ix) eqn:Er; try done.
  injection Hr as <-. simpl.
  destruct (String.eqb w w').
  - by injection Hl as ->.
  - by apply IH.
Qed.

Lemma assoc_lookup_keys w ix :
  w ∈ map fst ix -> exists p, assoc_lookup w ix = Some p.
Proof.
  induction ix as [|[w' q] ix IH]; simpl; intros H.
  - by apply not_elem_of_nil in H.
  - destruct (String.eqb w w') eqn:E; [eauto|].
    apply elem_of_cons in H as [->|H].
    + by rewrite String.eqb_refl in E.
    + by apply IH.
Qed.

Lemma resolve_entries_append_at h ix idx w p l x :
  NoDup (map snd ix) -> assoc_lookup w ix = Some p -> h !! p = Some l ->
  resolve_entries h ix = Some idx ->
  resolve_entries (<[p := (l ++ [x])%list]> h) ix = Some (add_location w x idx).
Proof.
  revert idx. induction ix as [|[w' q] ix IH]; intros idx Hnd Hl Hp Hr;
    simpl in *; [done|].
  apply NoDup_cons in Hnd as [Hq Hnd].
  destruct (h !! q) eqn:Eq, (resolve_entries h ix) eqn:Er; try done.
  injection Hr as <-. simpl.
  destruct (String.eqb w w') eqn:E.
  - injection Hl as <-. rewrite Hp in Eq. injection Eq as <-.
    rewrite lookup_insert_eq, resolve_entries_fresh, Er; done.
  - assert (q <> p) as Hqp.
    { intros ->. apply Hq. by eapply assoc_lookup_elem. }
    rewrite lookup_insert_ne, Eq; [|done].
    by rewrite (IH l1).
Qed.

Lemma assoc_store_same w ix p :
  assoc_lookup w ix = Some p -> assoc_store w p ix = ix.
Proof.
  induction ix as [|[w' q] ix IH]; simpl; [done|].
  destruct (String.eqb w w') eqn:E.
  - intros [= ->]. done.
  - intros H. by rewrite IH.
Qed.

Lemma assoc_store_new w ix p :
  assoc_lookup w ix = None -> assoc_store w p ix = (ix ++ [(w, p)])%list.
Proof.
  induction ix as [|[w' q] ix IH]; simpl; [done|].
  destruct (String.eqb w w') eqn:E; [done|].
  intros H. by rewrite IH.
Qed.

Lemma resolve_entries_snoc h ix idx w p l :
  resolve_entries h ix = Some idx -> h !! p = Some l ->
  resolve_entries h (ix ++ [(w, p)])%list = Some (idx ++ [(w, l)])%list.
Proof.
  revert idx. induction ix as [|[w' q] ix IH]; intros idx Hr Hp; simpl in *.
  - injection Hr as <-. by rewrite Hp.
  - destruct (h !! q), (resolve_entries h ix) eqn:Er; try done.
    injection Hr as <-. by rewrite (IH l1).
Qed.

Lemma add_location_new w x idx :
  w ∉ map fst idx -> add_location w x idx = (idx ++ [(w, [x])])%list.
Proof.
  induction idx as [|[w' ls] idx IH]; simpl; intros H; [done|].
  apply not_elem_of_cons in H as [Hw H].
  destruct (String.eqb w w') eqn:E.
  - apply String.eqb_eq in E. done.
  - by rewrite IH.
Qed.

Lemma inv_snoc (ix : list (string * nat)) w p n :
  NoDup (map snd ix) -> Forall (fun q => q < n) (map snd ix) -> n <= p ->
  NoDup (map snd (ix ++ [(w, p)])%list) /\
  Forall (fun q => q < S p) (map snd (ix ++ [(w, p)])%list).
Proof.
  intros Hnd Hlt Hp. rewrite map_app. simpl. split.
  - apply NoDup_app. split; [done|]. split; [|apply NoDup_singleton].
    intros q Hq Hq'. apply list_elem_of_singleton in Hq' as ->.
    eapply Forall_forall in Hlt; [|done]. lia.
  - apply Forall_app. split; [|constructor; [lia|constructor]].
    eapply Forall_impl; [done|]. simpl. lia.
Qed.

Lemma fresh_not_in (ix : list (string * nat)) n :
  Forall (fun q => q < n) (map snd ix) -> n ∉ map snd ix.
Proof.
  intros Hlt Hin. eapply Forall_forall in Hlt; [|done]. lia.
Qed.

Ltac run_M :=
  cbv [body_get body_setdefault body_default mbind M_bind mret M_ret
       new_list dict_get dict_setitem dict_setdefault dd_getitem list_append];
  cbv beta iota zeta delta [index heap next_id].

(** One iteration of a script's inner loop appends [x] to [w]'s locations. *)
Definition body_ok (body : string -> loc -> M unit) : Prop :=
  forall st idx w x, inv st -> resolve st = Some idx ->
  exists st', body w x st = (Ret tt, st') /\ inv st' /\
              resolve st' = Some (add_location w x idx).

Lemma inv_alloc (ix : list (string * nat)) n :
  NoDup (map snd ix) -> Forall (fun q => q < n) (map snd ix) ->
  Forall (fun q => q < S n) (map snd ix).
Proof. intros _ H. eapply Forall_impl; [done|]. simpl. lia. Qed.

Lemma lookup_below (ix : list (string * nat)) w p n :
  Forall (fun q => q < n) (map snd ix) -> assoc_lookup w ix = Some p -> n <> p.
Proof.
  intros Hlt Hl ->. eapply fresh_not_in; [done|]. by eapply assoc_lookup_elem.
Qed.

Lemma body_get_ok : body_ok body_get.
Proof.
  intros [ix h n] idx w x [Hnd Hlt] Hr. unfold resolve in *. simpl in *.
  run_M.
  destruct (assoc_lookup w ix) as [p|] eqn:El.
  - pose proof (lookup_below _ _ _ _ Hlt El) as Hnp.
    pose proof (assoc_lookup_heap _ _ _ _ _ Hr El) as Hp.
    rewrite lookup_insert_ne, Hp; [|done].
    eexists. split; [reflexivity|]. unfold resolve. simpl.
    rewrite assoc_store_same; [|done]. split; [split; [done|by apply inv_alloc]|].
    apply (resolve_entries_append_at _ _ _ _ _ _ _ Hnd El).
    + by rewrite lookup_insert_ne.
    + rewrite resolve_entries_fresh; [done|]. by apply fresh_not_in.
  - rewrite lookup_insert_eq. simpl.
    eexists. split; [reflexivity|]. unfold resolve. simpl.
    rewrite assoc_store_new; [|done].
    split; [by apply (inv_snoc _ _ _ n)|].
    rewrite insert_insert_eq.
    rewrite add_location_new.
    + apply resolve_entries_snoc; [|by rewrite lookup_insert_eq].
      rewrite resolve_entries_fresh; [done|]. by apply fresh_not_in.
    + rewrite (resolve_entries_keys _ _ _ Hr). by apply assoc_lookup_none.
Qed.

Lemma body_setdefault_ok : body_ok body_setdefault.
Proof.
  intros [ix h n] idx w x [Hnd Hlt] Hr. unfold resolve in *. simpl in *.
  run_M.
  destruct (assoc_lookup w ix) as [p|] eqn:El.
  - pose proof (lookup_below _ _ _ _ Hlt El) as Hnp.
    pose proof (assoc_lookup_heap _ _ _ _ _ Hr El) as Hp.
    rewrite lookup_insert_ne, Hp; [|done].
    eexists. split; [reflexivity|]. unfold resolve. simpl.
    split; [split; [done|by apply inv_alloc]|].
    apply (resolve_entries_append_at _ _ _ _ _ _ _ Hnd El).
    + by rewrite lookup_insert_ne.
    + rewrite resolve_entries_fresh; [done|]. by apply fresh_not_in.
  - rewrite lookup_insert_eq.
    eexists. split; [reflexivity|]. unfold resolve. simpl.
    rewrite assoc_store_new; [|done].
    split; [by apply (inv_snoc _ _ _ n)|].
    rewrite insert_insert_eq.
    rewrite add_location_new.
    + apply resolve_entries_snoc; [|by rewrite lookup_insert_eq].
      rewrite resolve_entries_fresh; [done|]. by apply fresh_not_in.
    + rewrite (resolve_entries_keys _ _ _ Hr). by apply assoc_lookup_none.
Qed.

Lemma body_default_ok : body_ok body_default.
Proof.
  intros [ix h n] idx w x [Hnd Hlt] Hr. unfold resolve in *. simpl in *.
  run_M.
  destruct (assoc_lookup w ix) as [p|] eqn:El.
  - pose proof (assoc_lookup_heap _ _ _ _ _ Hr El) as Hp.
    rewrite Hp.
    eexists. split; [reflexivity|]. unfold resolve. simpl.
    split; [done|].
    by apply (resolve_entries_append_at _ _ _ _ _ _ _ Hnd El).
  - rewrite lookup_insert_eq.
    eexists. split; [reflexivity|]. unfold resolve. simpl.
    rewrite assoc_store_new; [|done].
    split; [by apply (inv_snoc _ _ _ n)|].
    rewrite insert_insert_eq.
    rewrite add_location_new.
    + apply resolve_entries_snoc; [|by rewrite lookup_insert_eq].
      rewrite resolve_entries_fresh; [done|]. by apply fresh_not_in.
    + rewrite (resolve_entries_keys _ _ _ Hr). by apply assoc_lookup_none.
Qed.

Section Loops.
Variable body : string -> loc -> M unit.
Hypothesis Hbody : body_ok body.

Lemma for_matches_ok ms : forall line_no st idx,
  inv st -> resolve st = Some idx ->
  exists st', for_matches body line_no ms st = (Ret tt, st') /\ inv st' /\
              resolve st' = Some (add_matches line_no ms idx).
Proof.
  induction ms as [|[start word] ms IH]; intros line_no st idx Hinv Hr.
  - exists st. done.
  - cbn [for_matches]. cbv [mbind M_bind].
    destruct (Hbody st idx word (line_no, S start) Hinv Hr)
      as (st1 & -> & Hinv1 & Hr1).
    destruct (IH line_no st1 _ Hinv1 Hr1) as (st2 & -> & Hinv2 & Hr2).
    eauto.
Qed.

Lemma for_lines_ok lines : forall line_no st idx,
  inv st -> resolve st = Some idx ->
  exists st', for_lines body line_no lines st = (Ret tt, st') /\ inv st' /\
              resolve st' = Some (add_lines line_no lines idx).
Proof.
  induction lines as [|line lines IH]; intros line_no st idx Hinv Hr.
  - exists st. done.
  - cbn [for_lines add_lines]. cbv [mbind M_bind].
    destruct (for_matches_ok (finditer line) line_no st idx Hinv Hr)
      as (st1 & -> & Hinv1 & Hr1).
    destruct (IH (S line_no) st1 _ Hinv1 Hr1) as (st2 & -> & Hinv2 & Hr2).
    eauto.
Qed.
End Loops.

(** [index[word]] on a word that is a key returns its list object and
    changes nothing. *)
Definition getitem_ok (getitem : string -> M nat) : Prop :=
  forall st w p, assoc_lookup w (index st) = Some p -> getitem w st = (Ret p, st).

Lemma dict_getitem_ok : getitem_ok dict_getitem.
Proof. intros st w p H. unfold dict_getitem. by rewrite H. Qed.

Lemma dd_getitem_ok : getitem_ok dd_getitem.
Proof. intros st w p H. unfold dd_getitem. by rewrite H. Qed.

Lemma insert_by_upper_elem x w ws :
  x ∈ insert_by_upper w ws -> x = w \/ x ∈ ws.
Proof.
  induction ws as [|w' ws IH]; simpl.
  - intros ?%list_elem_of_singleton. by left.
  - destruct (str_leb (str_upper w') (str_upper w)).
    + intros [->|Hx]%elem_of_cons; [right; left|].
      destruct (IH Hx) as [->|Hx']; [by left|right; by right].
    + intros [->|Hx]%elem_of_cons; [by left|by right].
Qed.

Lemma sorted_upper_elem_aux x ws : forall acc,
  x ∈ fold_left (fun acc w => insert_by_upper w acc) ws acc -> x ∈ ws \/ x ∈ acc.
Proof.
  induction ws as [|w ws IH]; simpl; intros acc Hx; [by right|].
  destruct (IH _ Hx) as [H|H]; [left; by right|].
  destruct (insert_by_upper_elem _ _ _ H) as [->|H']; [left; left|by right].
Qed.

Lemma sorted_upper_elem x ws : x ∈ sorted_upper ws -> x ∈ ws.
Proof.
  intros Hx. destruct (sorted_upper_elem_aux _ _ _ Hx) as [H|H]; [done|].
  by apply not_elem_of_nil in H.
Qed.

Lemma print_loop_ok getitem ws : getitem_ok getitem -> forall st idx,
  resolve st = Some idx -> (forall w, w ∈ ws -> w ∈ map fst (index st)) ->
  print_loop getitem ws st = (Ret (map (fun w => (w, find_locations w idx)) ws), st).
Proof.
  intros Hg. induction ws as [|w ws IH]; intros st idx Hr Hws; [done|].
  cbn [print_loop]. cbv [mbind M_bind mret M_ret].
  destruct (assoc_lookup_keys w (index st)) as [p Hp]; [apply Hws; left|].
  rewrite (Hg _ _ _ Hp). unfold read_list.
  rewrite (assoc_lookup_heap _ _ _ _ _ Hr Hp).
  rewrite (IH st idx Hr); [done|]. intros w' Hw'. apply Hws. by right.
Qed.

Lemma inv_init : inv init.
Proof. split; constructor. Qed.

(** A script is its loop followed by the printing loop. *)
Lemma script_ok body getitem lines :
  body_ok body -> getitem_ok getitem ->
  exists st', (for_lines body 1 lines;; print_index getitem) init
                = (Ret (printed (word_index lines)), st') /\
              resolve st' = Some (word_index lines).
Proof.
  intros Hb Hg. cbv [mbind M_bind].
  destruct (for_lines_ok body Hb lines 1 init [] inv_init eq_refl)
    as (st1 & -> & Hinv1 & Hr1).
  exists st1. unfold print_index.
  rewrite (print_loop_ok _ _ Hg st1 _ Hr1).
  - unfold printed, word_index. rewrite (resolve_entries_keys _ _ _ Hr1). done.
  - intros w Hw. by apply sorted_upper_elem.
Qed.

Lemma example_3_2_ok lines :
  exists st', example_3_2 lines = (Ret (printed (word_index lines)), st') /\
              resolve st' = Some (word_index lines).
Proof. apply script_ok; [apply body_get_ok|apply dict_getitem_ok]. Qed.

Lemma example_3_4_ok lines :
  exists st', example_3_4 lines = (Ret (printed (word_index lines)), st') /\
              resolve st' = Some (word_index lines).
Proof. apply script_ok; [apply body_setdefault_ok|apply dict_getitem_ok]. Qed.

Lemma example_3_5_ok lines :
  exists st', example_3_5 lines = (Ret (printed (word_index lines)), st') /\
              resolve st' = Some (word_index lines).
Proof. apply script_ok; [apply body_default_ok|apply dd_getitem_ok]. Qed.

End IndexFacts.

(* ------------------------------------------------------------------ *)
(** ** Claims on the word-index scripts *)
Module IndexClaims.
Import Index IndexSpec IndexFacts.

(** Claim C3: on every input text, Examples 3-2 ([dict.get]), 3-4
    ([dict.setdefault]) and 3-5 ([defaultdict(list)]) print the same lines
    in the same order and end with the same index: the same words, in the
    same dict order, each with the same list of locations. *)
Theorem index_scripts_agree (lines : list string) :
  (example_3_2 lines).1 = (example_3_4 lines).1 /\
  (example_3_4 lines).1 = (example_3_5 lines).1 /\
  resolve (example_3_2 lines).2 = resolve (example_3_4 lines).2 /\
  resolve (example_3_4 lines).2 = resolve (example_3_5 lines).2.
Proof.
  destruct (example_3_2_ok lines) as (s2 & -> & R2).
  destruct (example_3_4_ok lines) as (s4 & -> & R4).
  destruct (example_3_5_ok lines) as (s5 & -> & R5).
  simpl. rewrite R2, R4, R5. done.
Qed.

(** Claim C2: for a word [w] absent from the index, [index[w]] on the plain
    dict raises [KeyError] and leaves the state as it was;
    [index.get(w, [])] returns the new empty list without storing it; and
    [index[w]] on [defaultdict(list)] creates a new empty list, stores it
    under [w] and returns it. *)
Theorem missing_key_strategies (st : IxState) (w : string) :
  assoc_lookup w (index st) = None ->
  (forall q, next_id st <= q -> heap st !! q = None) ->
  dict_getitem w st = (Raise (KeyError (VStr w)), st) /\
  (exists p st', (dflt ← new_list; dict_get w dflt) st = (Ret p, st') /\
                 heap st !! p = None /\ heap st' !! p = Some [] /\
                 index st' = index st) /\
  (exists p st', dd_getitem w st = (Ret p, st') /\
                 heap st !! p = None /\ heap st' !! p = Some [] /\
                 index st' = (index st ++ [(w, p)])%list /\
                 assoc_lookup w (index st') = Some p).
Proof.
  intros Hw Hfresh. destruct st as [ix h n]. simpl in *.
  split; [|split].
  - unfold dict_getitem. simpl. by rewrite Hw.
  - cbv [mbind M_bind new_list dict_get]. simpl. rewrite Hw.
    do 2 eexists. split; [reflexivity|]. simpl.
    split; [apply Hfresh; lia|]. split; [by rewrite lookup_insert_eq|done].
  - cbv [dd_getitem mbind M_bind mret M_ret new_list dict_setitem]. simpl.
    rewrite Hw. do 2 eexists. split; [reflexivity|]. simpl.
    rewrite assoc_store_new; [|done].
    split; [apply Hfresh; lia|]. split; [by rewrite lookup_insert_eq|].
    split; [done|].
    clear Hfresh. induction ix as [|[w' q] ix IH]; simpl.
    + by rewrite String.eqb_refl.
    + simpl in Hw. destruct (String.eqb w w'); [done|]. by apply IH.
Qed.

Lemma missing_key_strategies_witness :
  assoc_lookup "pin" (index init) = None /\
  dict_getitem "pin" init = (Raise (KeyError (VStr "pin")), init).
Proof.
  split; [reflexivity|].
  apply (missing_key_strategies init "pin"); [reflexivity|].
  intros q _. reflexivity.
Defined.

End IndexClaims.

(* ------------------------------------------------------------------ *)
(** ** Termination *)
Module TerminationClaims.
Import Index IndexSpec IndexFacts.

(** Claim C5: [StrKeyDict] lookups finish within two nested [__getitem__]
    frames on every instance and key (more frames change nothing, and two
    never hit the recursion limit), and the three index scripts run to
    completion on every finite input. *)
Theorem runs_to_completion :
  (forall (d : StrKey.StrKeyDict) (k : pyval) (fuel : nat), 2 <= fuel ->
     StrKey.getitem_fuel fuel d k = StrKey.getitem_fuel 2 d k /\
     StrKey.getitem_fuel 2 d k <> Raise RecursionError) /\
  (forall lines : list string,
     (exists out st, example_3_2 lines = (Ret out, st)) /\
     (exists out st, example_3_4 lines = (Ret out, st)) /\
     (exists out st, example_3_5 lines = (Ret out, st))).
Proof.
  split.
  - intros d k fuel Hf. destruct fuel as [|[|fuel]]; [lia|lia|].
    rewrite !StrKeyFacts.getitem_fuel_SS. split; [done|].
    destruct (StrKey.data d !! k); [done|].
    destruct (is_str k); [done|].
    by destruct (StrKey.data d !! VStr (py_str k)).
  - intros lines. split; [|split].
    + destruct (example_3_2_ok lines) as (st & -> & _). eauto.
    + destruct (example_3_4_ok lines) as (st & -> & _). eauto.
    + destruct (example_3_5_ok lines) as (st & -> & _). eauto.
Qed.

Lemma runs_to_completion_witness :
  2 <= recursion_limit /\
  StrKey.getitem_fuel recursion_limit (StrKey.run_ops []) (VInt 13)
    = StrKey.getitem_fuel 2 (StrKey.run_ops []) (VInt 13).
Proof.
  split; [unfold recursion_limit; lia|].
  apply (proj1 runs_to_completion); unfold recursion_limit; lia.
Defined.

End TerminationClaims.

(* ------------------------------------------------------------------ *)
(** ** [FrenchDeck] and [spades_high] *)
Module DeckClaims.
Import Deck.

Lemma init_cards_length : List.length (_cards __init__) = 52.
Proof. vm_compute. reflexivity. Qed.

(** Claim C6: a new deck has 52 cards (13 ranks, 4 suits); for every
    position [i] with [-52 <= i < 52], [deck[i]] is the card at position
    [i] of [_cards] ([i + 52] for negative [i]); [len] and [deck[i]] leave
    every deck as it was. *)
Theorem french_deck_sequence :
  __len__ __init__ = (Ret 52, __init__) /\
  List.length ranks = 13 /\ List.length suits = 4 /\
  (forall i : Z, (-52 <= i < 52)%Z ->
     exists c, __getitem__ i __init__ = (Ret c, __init__) /\
               _cards __init__ !! Z.to_nat (if (i <? 0)%Z then i + 52 else i)%Z
                 = Some c) /\
  (forall (d : FrenchDeck) (i : Z), (__getitem__ i d).2 = d /\ (__len__ d).2 = d).
Proof.
  split; [unfold __len__; by rewrite init_cards_length|].
  split; [reflexivity|]. split; [reflexivity|].
  split; [|done].
  intros i Hi. unfold __getitem__, py_list_getitem. rewrite init_cards_length.
  set (j := if (i <? 0)%Z then (i + Z.of_nat 52)%Z else i).
  assert (0 <= j < 52)%Z as Hj.
  { unfold j. destruct (Z.ltb_spec i 0); lia. }
  assert (((0 <=? j)%Z && (j <? Z.of_nat 52)%Z)%bool = true) as ->.
  { apply andb_true_intro. split; [apply Z.leb_le|apply Z.ltb_lt]; lia. }
  destruct (_cards __init__ !! Z.to_nat j) as [c|] eqn:E.
  - exists c. split; [done|]. rewrite <- E. unfold j. done.
  - apply lookup_ge_None in E. rewrite init_cards_length in E. lia.
Qed.

Lemma french_deck_sequence_witness :
  (-52 <= -1 < 52)%Z /\ __getitem__ (-1) __init__ = (Ret (mkCard "A" "hearts"), __init__).
Proof.
  split; [lia|].
  destruct ((proj1 (proj2 (proj2 (proj2 french_deck_sequence)))) (-1)%Z)
    as (c & H & Hc); [lia|].
  rewrite H. vm_compute in Hc. injection Hc as <-. reflexivity.
Defined.

(** Claim C10: on the 52 cards of a new deck, [spades_high] is
    [index of rank in ranks * 4 + suit value] (spades 3, hearts 2,
    diamonds 1, clubs 0); it takes 52 distinct values, exactly [0..51];
    the 2 of clubs gets 0 and the ace of spades 51. *)
Theorem spades_high_ranking :
  (forall c, c ∈ _cards __init__ ->
     exists r, py_index (rank c) ranks = Ret r /\ ranks !! r = Some (rank c) /\
               spades_high c = Ret (Z.of_nat r * 4 + suit_rank_spec (suit c))%Z) /\
  NoDup (map spades_high (_cards __init__)) /\
  (forall n : Z, (0 <= n <= 51)%Z <->
     exists c, c ∈ _cards __init__ /\ spades_high c = Ret n) /\
  spades_high (mkCard "2" "clubs") = Ret 0%Z /\
  spades_high (mkCard "A" "spades") = Ret 51%Z.
Proof.
  split; [|split; [|split; [|split; reflexivity]]].
  - apply Forall_forall. vm_compute.
    repeat (constructor; [eexists; split; [reflexivity|split; reflexivity]|]).
    constructor.
  - apply (bool_decide_unpack _). vm_compute. reflexivity.
  - intros n. split.
    + intros Hn.
      assert (Forall (fun k : nat => Exists (fun c => spades_high c = Ret (Z.of_nat k))
                                           (_cards __init__)) (seq 0 52)) as Hall.
      { apply (bool_decide_unpack _). vm_compute. reflexivity. }
      rewrite Forall_forall in Hall.
      destruct (proj1 (Exists_exists _ _) (Hall (Z.to_nat n) ltac:(apply elem_of_seq; lia)))
        as (c & Hc & Hs).
      exists c. split; [done|]. rewrite Hs. f_equal. lia.
    + intros (c & Hc & Hs).
      assert (forallb (fun c => match spades_high c with
                                | Ret m => ((0 <=? m) && (m <=? 51))%Z
                                | Raise _ => false end)
                      (_cards __init__) = true) as Hall.
      { vm_compute. reflexivity. }
      rewrite forallb_forall in Hall.
      specialize (Hall c (proj1 (list_elem_of_In _ _) Hc)). rewrite Hs in Hall.
      apply andb_prop in Hall as [H1 H2]. apply Z.leb_le in H1, H2. lia.
Qed.

Lemma spades_high_ranking_witness :
  mkCard "Q" "hearts" ∈ _cards __init__ /\
  exists r, py_index "Q" ranks = Ret r /\ ranks !! r = Some "Q" /\
            spades_high (mkCard "Q" "hearts") = Ret (Z.of_nat r * 4 + 2)%Z.
Proof.
  assert (mkCard "Q" "hearts" ∈ _cards __init__) as Hin.
  { apply (bool_decide_unpack _). vm_compute. reflexivity. }
  split; [exact Hin|].
  exact (proj1 spades_high_ranking (mkCard "Q" "hearts") Hin).
Defined.

End DeckClaims.

(* ------------------------------------------------------------------ *)
(** ** [Vector] *)
Module VectorClaims.
Import Vec.

(** Claim C7: [+] and [*] act componentwise, [abs] is [hypot] of the
    components, and [bool(v)] is false exactly when [abs(v)] is zero, that
    is, when both components are zero. *)
Theorem vector_operators (x1 y1 x2 y2 s : R) :
  __add__ (mkVector x1 y1) (mkVector x2 y2) = mkVector (x1 + x2) (y1 + y2) /\
  __mul__ (mkVector x1 y1) s = mkVector (x1 * s) (y1 * s) /\
  __abs__ (mkVector x1 y1) = hypot x1 y1 /\
  (__bool__ (mkVector x1 y1) = false <-> __abs__ (mkVector x1 y1) = 0%R) /\
  (__bool__ (mkVector x1 y1) = false <-> x1 = 0%R /\ y1 = 0%R).
Proof.
  assert (Hb : __bool__ (mkVector x1 y1) = false <-> __abs__ (mkVector x1 y1) = 0%R).
  { unfold __bool__, py_bool. destruct (Req_EM_T (__abs__ (mkVector x1 y1)) 0);
      split; intros H; done. }
  split; [reflexivity|]. split; [reflexivity|]. split; [reflexivity|].
  split; [exact Hb|]. rewrite Hb. unfold __abs__, hypot. simpl. split.
  - intros H. apply sqrt_eq_0 in H; [|nra]. split; nra.
  - intros [-> ->]. replace (0 * 0 + 0 * 0)%R with 0%R by ring. apply sqrt_0.
Qed.

End VectorClaims.

(* ------------------------------------------------------------------ *)
(** ** The deck through the sequence protocol *)
Module DeckSeqFacts.
Import Deck DeckSeq.

(** [lst[i]] for a non-negative [i]. *)
Lemma py_list_getitem_nat {A} (l : list A) (i : nat) :
  py_list_getitem l (Z.of_nat i) =
    match l !! i with Some x => Ret x | None => Raise IndexError end.
Proof.
  unfold py_list_getitem.
  replace (Z.of_nat i <? 0)%Z with false by (symmetry; apply Z.ltb_ge; lia).
  destruct (decide (i < List.length l)) as [Hlt|Hge].
  - replace ((0 <=? Z.of_nat i)%Z && (Z.of_nat i <? Z.of_nat (List.length l))%Z)%bool
      with true by (symmetry; apply andb_true_intro; split; [apply Z.leb_le|apply Z.ltb_lt]; lia).
    by rewrite Nat2Z.id.
  - replace ((0 <=? Z.of_nat i)%Z && (Z.of_nat i <? Z.of_nat (List.length l))%Z)%bool
      with false.
    + by rewrite lookup_ge_None_2 by lia.
    + symmetry. apply andb_false_intro2. apply Z.ltb_ge. lia.
Qed.

Lemma seq_iter_drop (d : FrenchDeck) fuel : forall i,
  List.length (_cards d) - i < fuel ->
  seq_iter fuel i d = Some (Ret (drop i (_cards d))).
Proof.
  induction fuel as [|fuel IH]; intros i Hf; [lia|].
  cbn [seq_iter]. unfold __getitem__. cbn -[py_list_getitem].
  rewrite py_list_getitem_nat.
  destruct (_cards d !! i) as [c|] eqn:E.
  - rewrite (IH (S i)).
    + by rewrite (drop_S _ _ _ E).
    + apply lookup_lt_Some in E. lia.
  - apply lookup_ge_None in E. by rewrite drop_ge.
Qed.

(** [for card in deck] visits the cards of [_cards] in order and stops
    within [len(deck) + 1] calls of [__getitem__], at the first one that
    raises [IndexError]. *)
Theorem deck_iteration (d : FrenchDeck) (fuel : nat) :
  List.length (_cards d) < fuel ->
  seq_iter fuel 0 d = Some (Ret (_cards d)).
Proof. intros Hf. rewrite seq_iter_drop; [done|lia]. Qed.

Lemma deck_iteration_witness :
  List.length (_cards __init__) < 53 /\
  seq_iter 53 0 __init__ = Some (Ret (_cards __init__)).
Proof. split; [vm_compute; lia|]. apply deck_iteration. vm_compute. lia. Defined.

Lemma reversed_from_take (d : FrenchDeck) k :
  k <= List.length (_cards d) ->
  reversed_from k d = Ret (rev (take k (_cards d))).
Proof.
  induction k as [|k IH]; intros Hk; [done|].
  cbn [reversed_from]. unfold __getitem__. cbn -[py_list_getitem].
  rewrite py_list_getitem_nat.
  destruct (_cards d !! k) as [c|] eqn:E.
  - rewrite IH by lia. rewrite (take_S_r _ _ _ E), rev_app_distr. done.
  - apply lookup_ge_None in E. lia.
Qed.

(** [reversed(deck)] yields the cards of [_cards] from last to first. *)
Theorem deck_reversed (d : FrenchDeck) :
  py_reversed d = Ret (rev (_cards d)).
Proof.
  unfold py_reversed, __len__. cbn.
  rewrite reversed_from_take; [|done]. by rewrite take_ge.
Qed.

Lemma seq_contains_drop (d : FrenchDeck) x fuel : forall i,
  List.length (_cards d) - i < fuel ->
  seq_contains fuel i x d = Some (Ret (bool_decide (x ∈ drop i (_cards d)))).
Proof.
  induction fuel as [|fuel IH]; intros i Hf; [lia|].
  cbn [seq_contains]. unfold __getitem__. cbn -[py_list_getitem].
  rewrite py_list_getitem_nat.
  destruct (_cards d !! i) as [c|] eqn:E.
  - rewrite (drop_S _ _ _ E).
    destruct (decide (c = x)) as [->|Hne].
    + rewrite bool_decide_eq_true_2; [done|]. left.
    + rewrite (IH (S i)).
      * f_equal. f_equal. apply bool_decide_ext. rewrite elem_of_cons. naive_solver.
      * apply lookup_lt_Some in E. lia.
  - apply lookup_ge_None in E. rewrite drop_ge; [|done].
    rewrite bool_decide_eq_false_2; [done|]. apply not_elem_of_nil.
Qed.

Lemma init_cards_elem (x : Card) :
  x ∈ _cards __init__ <-> rank x ∈ ranks /\ suit x ∈ suits.
Proof.
  unfold __init__. cbn [_cards]. rewrite list_elem_of_bind.
  split.
  - intros (s & Hx & Hs). rewrite list_elem_of_In, in_map_iff in Hx.
    destruct Hx as (r & <- & Hr). simpl. split; [by apply list_elem_of_In|done].
  - intros [Hr Hs]. exists (suit x). split; [|done].
    rewrite list_elem_of_In, in_map_iff. exists (rank x).
    split; [by destruct x|by apply list_elem_of_In].
Qed.

(** [x in deck] (a scan through [__getitem__]) is [True] exactly when [x]
    is one of the cards of [_cards]; on a new deck, exactly when its rank
    is one of [ranks] and its suit one of [suits]. *)
Theorem deck_contains (d : FrenchDeck) (x : Card) (fuel : nat) :
  List.length (_cards d) < fuel ->
  seq_contains fuel 0 x d = Some (Ret (bool_decide (x ∈ _cards d))) /\
  (d = __init__ -> (x ∈ _cards d <-> rank x ∈ ranks /\ suit x ∈ suits)).
Proof.
  intros Hf. split.
  - rewrite seq_contains_drop; [done|lia].
  - intros ->. apply init_cards_elem.
Qed.

Lemma deck_contains_witness :
  List.length (_cards __init__) < 53 /\
  seq_contains 53 0 (mkCard "7" "beasts") __init__ = Some (Ret false).
Proof.
  split; [vm_compute; lia|].
  rewrite (proj1 (deck_contains __init__ (mkCard "7" "beasts") 53 ltac:(vm_compute; lia))).
  rewrite bool_decide_eq_false_2; [done|].
  rewrite (proj2 (deck_contains __init__ (mkCard "7" "beasts") 53 ltac:(vm_compute; lia)) eq_refl).
  intros [_ Hs]. apply (bool_decide_pack _) in Hs. vm_compute in Hs. done.
Defined.

End DeckSeqFacts.

(* ------------------------------------------------------------------ *)
(** ** Slicing and sorting *)
Module DeckSliceFacts.
Import Deck DeckSeq.

Lemma slice_items_step1 {A} (l : list A) n : forall i,
  slice_items l n (Z.of_nat i) 1 = take n (drop i l).
Proof.
  induction n as [|n IH]; intros i; [done|].
  cbn [slice_items]. rewrite Nat2Z.id.
  destruct (l !! i) as [x|] eqn:E.
  - rewrite (drop_S _ _ _ E). cbn. f_equal.
    replace (Z.of_nat i + 1)%Z with (Z.of_nat (S i)) by lia. apply IH.
  - apply lookup_ge_None in E. by rewrite drop_ge.
Qed.

Lemma slice_items_down {A} (l : list A) k :
  k <= List.length l ->
  slice_items l k (Z.of_nat k - 1) (-1) = rev (take k l).
Proof.
  induction k as [|k IH]; intros Hk; [done|].
  cbn [slice_items].
  replace (Z.to_nat (Z.of_nat (S k) - 1)) with k by lia.
  destruct (l !! k) as [x|] eqn:E.
  - replace (Z.of_nat (S k) - 1 + -1)%Z with (Z.of_nat k - 1)%Z by lia.
    rewrite IH by lia. rewrite (take_S_r _ _ _ E), rev_app_distr. done.
  - apply lookup_ge_None in E. lia.
Qed.

(** [lst[a:b]] with [0 <= a <= b <= len(lst)] is the run of [b - a] items
    from position [a]; [lst[-a:]] with [0 < a <= len(lst)] is the last [a]
    items; [lst[::-1]] is the list reversed; a zero step raises
    [ValueError]. *)
Theorem list_slice_cases {A} (l : list A) (a b : nat) :
  a <= b <= List.length l ->
  py_list_slice l (Some (Z.of_nat a)) (Some (Z.of_nat b)) None
    = Ret (take (b - a) (drop a l)) /\
  (0 < a -> py_list_slice l (Some (- Z.of_nat a)%Z) None None
    = Ret (drop (List.length l - a) l)) /\
  py_list_slice l None None (Some (-1)%Z) = Ret (rev l) /\
  py_list_slice l (Some (Z.of_nat a)) (Some (Z.of_nat b)) (Some 0%Z) = Raise ValueError.
Proof.
  intros Hab. split; [|split; [|split]].
  - unfold py_list_slice, slice_bound, slice_length. cbn -[Z.of_nat].
    replace (Z.of_nat a <? 0)%Z with false by (symmetry; apply Z.ltb_ge; lia).
    replace (Z.of_nat b <? 0)%Z with false by (symmetry; apply Z.ltb_ge; lia).
    assert (Ea : (if (Z.of_nat (List.length l) <=? Z.of_nat a)%Z
                  then Z.of_nat (List.length l) else Z.of_nat a) = Z.of_nat a)
      by (destruct (Z.leb_spec (Z.of_nat (List.length l)) (Z.of_nat a)); lia).
    assert (Eb : (if (Z.of_nat (List.length l) <=? Z.of_nat b)%Z
                  then Z.of_nat (List.length l) else Z.of_nat b) = Z.of_nat b)
      by (destruct (Z.leb_spec (Z.of_nat (List.length l)) (Z.of_nat b)); lia).
    rewrite Ea, Eb, slice_items_step1. f_equal. f_equal.
    destruct (Z.ltb_spec (Z.of_nat a) (Z.of_nat b)).
    + rewrite Z.div_1_r. lia.
    + lia.
  - intros Ha. unfold py_list_slice, slice_bound, slice_length. cbn -[Z.of_nat].
    replace (- Z.of_nat a <? 0)%Z with true by (symmetry; apply Z.ltb_lt; lia).
    replace (- Z.of_nat a + Z.of_nat (List.length l) <? 0)%Z with false
      by (symmetry; apply Z.ltb_ge; lia).
    replace (- Z.of_nat a + Z.of_nat (List.length l))%Z
      with (Z.of_nat (List.length l - a)) by lia.
    rewrite slice_items_step1. f_equal.
    destruct (Z.ltb_spec (Z.of_nat (List.length l - a)) (Z.of_nat (List.length l))).
    + rewrite Z.div_1_r, take_ge; [done|]. rewrite length_drop. lia.
    + lia.
  - unfold py_list_slice, slice_length. cbn -[Z.of_nat].
    destruct (Z.ltb_spec (-1) (Z.of_nat (List.length l) - 1)) as [Hlt|Hge].
    + match goal with |- context [Z.to_nat ?e] =>
        replace (Z.to_nat e) with (List.length l) end;
        [|replace (- -1)%Z with 1%Z by lia; rewrite Z.div_1_r; lia].
      replace (Z.of_nat (List.length l) - 1)%Z with (Z.of_nat (List.length l) - 1)%Z by lia.
      rewrite slice_items_down, take_ge; done.
    + destruct l; [done|]. cbn in Hge. lia.
  - done.
Qed.

Lemma list_slice_cases_witness :
  1 <= 3 <= List.length (_cards __init__) /\
  py_list_slice (_cards __init__) (Some 1%Z) (Some 3%Z) None
    = Ret (take 2 (drop 1 (_cards __init__))).
Proof.
  split; [vm_compute; lia|].
  exact (proj1 (list_slice_cases (_cards __init__) 1 3 ltac:(vm_compute; lia))).
Defined.

(** [deck[r::13]] for a rank position [r] is the card of rank [ranks[r]]
    in each of the four suits, in the order of [suits]. *)
Theorem deck_rank_stride (r : nat) :
  r < 13 ->
  __getitem_slice__ (Some (Z.of_nat r)) None (Some 13%Z) __init__
    = (Ret (map (fun s => mkCard (nth r ranks "") s) suits), __init__).
Proof.
  intros Hr.
  do 13 (destruct r as [|r]; [vm_compute; reflexivity|]). lia.
Qed.

Lemma deck_rank_stride_witness :
  12 < 13 /\
  __getitem_slice__ (Some 12%Z) None (Some 13%Z) __init__
    = (Ret (map (fun s => mkCard "A" s) suits), __init__).
Proof. split; [lia|]. exact (deck_rank_stride 12 ltac:(lia)). Defined.

Lemma insert_keyed_perm {A} (kx : Z * A) l : insert_keyed kx l ≡ₚ kx :: l.
Proof.
  induction l as [|ky l IH]; cbn; [done|].
  destruct (ky.1 <=? kx.1)%Z; [|done].
  rewrite IH. apply perm_swap.
Qed.

Lemma insert_keyed_hd {A} (kx ky : Z * A) l :
  HdRel (fun a b : Z * A => (a.1 <= b.1)%Z) ky l -> (ky.1 <= kx.1)%Z ->
  HdRel (fun a b : Z * A => (a.1 <= b.1)%Z) ky (insert_keyed kx l).
Proof.
  intros Hhd Hle. destruct l as [|kz l]; cbn; [by constructor|].
  inversion Hhd; subst.
  destruct (kz.1 <=? kx.1)%Z; by constructor.
Qed.

Lemma insert_keyed_sorted {A} (kx : Z * A) l :
  key_sorted l -> key_sorted (insert_keyed kx l).
Proof.
  unfold key_sorted. induction l as [|ky l IH]; intros Hs; cbn.
  - by repeat constructor.
  - inversion Hs as [|? ? Hs' Hhd]; subst.
    destruct (Z.leb_spec ky.1 kx.1).
    + constructor; [by apply IH|]. by apply insert_keyed_hd.
    + constructor; [done|]. constructor. lia.
Qed.

Lemma insertion_fold {A} (kl acc : list (Z * A)) :
  key_sorted acc ->
  key_sorted (fold_left (fun acc kx => insert_keyed kx acc) kl acc) /\
  fold_left (fun acc kx => insert_keyed kx acc) kl acc ≡ₚ kl ++ acc.
Proof.
  revert acc. induction kl as [|kx kl IH]; intros acc Hs; cbn; [done|].
  destruct (IH (insert_keyed kx acc)) as [Hs' Hp]; [by apply insert_keyed_sorted|].
  split; [done|]. rewrite Hp, insert_keyed_perm. by rewrite <- Permutation_middle.
Qed.

Lemma keyed_ok {A} (key : A -> outcome Z) l :
  (forall x, x ∈ l -> exists k, key x = Ret k) ->
  exists kl, keyed key l = Ret kl /\ map snd kl = l /\
             Forall (fun kx => key kx.2 = Ret kx.1) kl.
Proof.
  induction l as [|x l IH]; intros Hk; cbn.
  - by exists [].
  - destruct (Hk x) as [k Ek]; [left|]. rewrite Ek.
    destruct IH as (kl & -> & Hm & Hf).
    { intros y Hy. apply Hk. by right. }
    exists ((k, x) :: kl). cbn. rewrite Hm. by repeat constructor.
Qed.

Lemma keyed_raise {A} (key : A -> outcome Z) l x e :
  x ∈ l -> key x = Raise e -> exists e', keyed key l = Raise e'.
Proof.
  induction l as [|y l IH]; intros Hx He; [by apply not_elem_of_nil in Hx|].
  cbn. destruct (key y) as [k|e'] eqn:Ey; [|by eexists].
  apply elem_of_cons in Hx as [->|Hx]; [congruence|].
  destruct (IH Hx He) as [e' ->]. by eexists.
Qed.

(** [sorted(items, key=key)]: when every key is computed, the result is a
    rearrangement of [items] whose keys are in non-decreasing order; when
    some key raises, [sorted] raises. *)
Theorem sorted_key_spec {A} (key : A -> outcome Z) (l : list A) :
  ((forall x, x ∈ l -> exists k, key x = Ret k) ->
   exists kl, py_sorted key l = Ret (map snd kl) /\ map snd kl ≡ₚ l /\
              Forall (fun kx => key kx.2 = Ret kx.1) kl /\ key_sorted kl) /\
  (forall x e, x ∈ l -> key x = Raise e -> exists e', py_sorted key l = Raise e').
Proof.
  split.
  - intros Hk. destruct (keyed_ok key l Hk) as (kl & Ekl & Hm & Hf).
    destruct (insertion_fold kl [] ltac:(constructor)) as [Hs Hp].
    eexists. unfold py_sorted. rewrite Ekl. split; [done|].
    rewrite app_nil_r in Hp. split; [|split; [|done]].
    + rewrite <- Hm. by apply Permutation_map.
    + by rewrite Hp.
  - intros x e Hx He. destruct (keyed_raise key l x e Hx He) as [e' Ee].
    exists e'. unfold py_sorted. by rewrite Ee.
Qed.

Lemma sorted_key_spec_witness :
  (forall x, x ∈ _cards __init__ -> exists k, spades_high x = Ret k) /\
  exists kl, py_sorted spades_high (_cards __init__) = Ret (map snd kl) /\
             key_sorted kl.
Proof.
  assert (Hk : forall x, x ∈ _cards __init__ -> exists k, spades_high x = Ret k).
  { apply Forall_forall. cbv [__init__ _cards].
    repeat (constructor; [eexists; vm_compute; reflexivity|]). constructor. }
  split; [exact Hk|].
  destruct (proj1 (sorted_key_spec spades_high (_cards __init__)) Hk)
    as (kl & E & _ & _ & Hs).
  exists kl. split; assumption.
Defined.

End DeckSliceFacts.

(* ------------------------------------------------------------------ *)
(** ** [StrKeyDict]: assignment, deletion, construction, [get],
    [setdefault] *)
Module StrKeyMoreFacts.
Import StrKey StrKeyMore StrKeyFacts.

(** On a string-keyed [data], [self[key]] is the lookup of [str(key)]. *)
Lemma getitem_str_keyed d k :
  str_keyed d ->
  __getitem__ d k =
    match data d !! VStr (py_str k) with
    | Some v => Ret v
    | None => Raise (KeyError (VStr (py_str k)))
    end.
Proof.
  intros Hd. rewrite getitem_closed, getitem_fuel_SS.
  destruct k as [s|z|]; cbn [is_str py_str]; [by destruct (data d !! VStr s)|..];
    (rewrite str_keyed_nonstr; [|done|done]); done.
Qed.

(** [d[k] = v] followed by [d[k']]: a key with the same string form reads
    [v] back, any other key reads what it read before. *)
Theorem setitem_getitem (ops : list op) (k k' v : pyval) :
  (py_str k' = py_str k ->
   __getitem__ (__setitem__ (run_ops ops) k v) k' = Ret v) /\
  (py_str k' <> py_str k ->
   __getitem__ (__setitem__ (run_ops ops) k v) k' = __getitem__ (run_ops ops) k').
Proof.
  pose proof (run_ops_str_keyed ops) as Hd.
  pose proof (setitem_str_keyed _ k v Hd) as Hd'.
  rewrite !getitem_str_keyed by done. cbn [data __setitem__].
  split; intros Heq.
  - by rewrite Heq, lookup_insert_eq.
  - rewrite lookup_insert_ne; [done|]. congruence.
Qed.

Lemma setitem_getitem_witness :
  py_str (VStr "4") = py_str (VInt 4) /\
  __getitem__ (__setitem__ (run_ops []) (VInt 4) (VStr "four")) (VStr "4")
    = Ret (VStr "four").
Proof.
  split; [reflexivity|].
  exact (proj1 (setitem_getitem [] (VInt 4) (VStr "4") (VStr "four")) eq_refl).
Defined.

(** [len(d)] grows by one on [d[k] = v] exactly when [k in d] was false. *)
Theorem setitem_len (d : StrKeyDict) (k v : pyval) :
  __len__ (__setitem__ d k v) =
    if __contains__ d k then __len__ d else S (__len__ d).
Proof.
  unfold __len__, __contains__. cbn [data __setitem__].
  destruct (data d !! VStr (py_str k)) eqn:E.
  - by rewrite map_size_insert_Some.
  - by rewrite map_size_insert_None.
Qed.

(** [del d[k]] uses the raw key: after [d[k] = v] with a non-string [k],
    [k in d] and [d[k]] succeed but [del d[k]] raises [KeyError] and
    leaves [d] as it was, while [del d[str(k)]] removes the item. *)
Theorem delitem_raw_key (ops : list op) (k v : pyval) :
  is_str k = false ->
  let d := __setitem__ (run_ops ops) k v in
  __contains__ d k = true /\ __getitem__ d k = Ret v /\
  __delitem__ d k = (Raise (KeyError k), d) /\
  exists d'', __delitem__ d (VStr (py_str k)) = (Ret tt, d'') /\
              __contains__ d'' k = false.
Proof.
  intros Hk d.
  pose proof (setitem_str_keyed _ k v (run_ops_str_keyed ops)) as Hd.
  split; [|split; [|split]].
  - unfold d, __contains__. cbn. by rewrite lookup_insert_eq.
  - unfold d. by apply (setitem_getitem ops k k v).
  - unfold __delitem__. by rewrite (str_keyed_nonstr d k Hd Hk).
  - unfold __delitem__, d. cbn [data __setitem__]. rewrite lookup_insert_eq.
    eexists. split; [done|]. unfold __contains__. cbn.
    by rewrite lookup_delete_eq.
Qed.

Lemma delitem_raw_key_witness :
  is_str (VInt 2) = false /\
  __delitem__ (__setitem__ (run_ops []) (VInt 2) (VStr "two")) (VInt 2)
    = (Raise (KeyError (VInt 2)), __setitem__ (run_ops []) (VInt 2) (VStr "two")).
Proof.
  split; [reflexivity|].
  exact (proj1 (proj2 (proj2 (delitem_raw_key [] (VInt 2) (VStr "two") eq_refl)))).
Defined.

Lemma update_lookup_str s pairs : forall d,
  data (update d pairs) !! VStr s =
    fold_left (fun acc kv => if String.eqb (py_str kv.1) s then Some kv.2 else acc)
      pairs (data d !! VStr s).
Proof.
  unfold update.
  induction pairs as [|[k v] pairs IH]; intros d; [done|].
  cbn [fold_left]. rewrite IH. f_equal. cbn [data __setitem__ fst snd].
  destruct (String.eqb_spec (py_str k) s) as [->|Hne].
  - by rewrite lookup_insert_eq.
  - rewrite lookup_insert_ne; [done|]. congruence.
Qed.

Lemma fold_last_value s pairs : forall acc : option pyval,
  fold_left (fun acc kv => if String.eqb (py_str kv.1) s then Some kv.2 else acc)
    pairs acc =
  match last_value s pairs with Some v => Some v | None => acc end.
Proof.
  unfold last_value.
  induction pairs as [|[k v] pairs IH]; intros acc; cbn; [done|].
  destruct (String.eqb (py_str k) s); [|apply IH].
  rewrite (IH (Some v)).
  by destruct (fold_left _ pairs None).
Qed.

(** [d.update(pairs)] (and [StrKeyDict(pairs)], an update of the empty
    instance): afterwards [d[k]] is the value of the last pair whose key
    has the string form of [k], or what [d[k]] was before when there is
    none; [data] holds exactly these last values under string keys. *)
Theorem update_getitem (ops : list op) (pairs : list (pyval * pyval)) (k : pyval) :
  __getitem__ (update (run_ops ops) pairs) k =
    match last_value (py_str k) pairs with
    | Some v => Ret v
    | None => __getitem__ (run_ops ops) k
    end /\
  data (run_ops [Construct pairs]) !! k =
    match k with VStr s => last_value s pairs | _ => None end.
Proof.
  pose proof (run_ops_str_keyed ops) as Hd.
  split.
  - rewrite !getitem_str_keyed by (try apply update_str_keyed; done).
    rewrite update_lookup_str, fold_last_value.
    by destruct (last_value (py_str k) pairs).
  - cbn [run_ops fold_left run_op].
    destruct k as [s| |].
    + rewrite update_lookup_str, fold_last_value. cbn.
      rewrite lookup_empty. by destruct (last_value s pairs).
    + apply str_keyed_nonstr; [apply update_str_keyed, empty_str_keyed|done].
    + apply str_keyed_nonstr; [apply update_str_keyed, empty_str_keyed|done].
Qed.

(** [d.get(k, default)] is [d.data[str(k)]], or [default] when [str(k)]
    is not a key; [get] never raises. *)
Theorem get_str_form (ops : list op) (k dflt : pyval) :
  get (run_ops ops) k dflt =
    Ret (match data (run_ops ops) !! VStr (py_str k) with
         | Some v => v
         | None => dflt
         end).
Proof.
  unfold get. rewrite getitem_str_keyed by apply run_ops_str_keyed.
  by destruct (data (run_ops ops) !! VStr (py_str k)).
Qed.

(** [d.setdefault(k, default)]: when [str(k)] is a key, its value is
    returned and [d] is unchanged; otherwise [default] is stored under
    [str(k)] (never under [k] itself) and returned. *)
Theorem setdefault_str_form (ops : list op) (k dflt : pyval) :
  setdefault (run_ops ops) k dflt =
    match data (run_ops ops) !! VStr (py_str k) with
    | Some v => (Ret v, run_ops ops)
    | None => (Ret dflt,
               mkStrKeyDict (<[VStr (py_str k) := dflt]> (data (run_ops ops))))
    end.
Proof.
  unfold setdefault. rewrite getitem_str_keyed by apply run_ops_str_keyed.
  by destruct (data (run_ops ops) !! VStr (py_str k)).
Qed.

End StrKeyMoreFacts.

(* ------------------------------------------------------------------ *)
(** ** [Vector]: scaling and the triangle inequality *)
Module VectorFacts.
Import Vec.





End VectorFacts.

(* ------------------------------------------------------------------ *)
(** ** Example 3-1: what the comprehensions build *)
Module DictCompFacts.
Import DictComp.
Local Open Scope list_scope.

Lemma dict_store_fresh {K V} `{EqDecision K} (k : K) (v : V) d :
  k ∉ map fst d -> dict_store k v d = d ++ [(k, v)].
Proof.
  induction d as [|[k' v'] d IH]; intros Hk; cbn; [done|].
  rewrite decide_False by (intros ->; apply Hk; left).
  rewrite IH; [done|]. intros H. apply Hk. by right.
Qed.

Lemma dict_find_elem {K V} `{EqDecision K} (k : K) (v : V) d :
  NoDup (map fst d) -> dict_find k d = Some v <-> (k, v) ∈ d.
Proof.
  induction d as [|[k' v'] d IH]; intros Hnd; cbn.
  - split; [done|]. intros H. by apply not_elem_of_nil in H.
  - apply NoDup_cons in Hnd as [Hk' Hnd]. rewrite elem_of_cons.
    destruct (decide (k = k')) as [->|Hne].
    + split.
      * intros [= ->]. by left.
      * intros [[= ->]|Hin]; [done|].
        exfalso. apply Hk'. apply list_elem_of_In.
        apply (in_map fst d (k', v)). by apply list_elem_of_In.
    + rewrite IH by done. split; [by right|]. intros [[= -> ->]|]; done.
Qed.

(** A comprehension whose clauses all produce distinct keys appends one
    item per produced pair, in order. *)
Lemma fold_store_fresh {A K V} `{EqDecision K} (sel : A -> option (K * V))
    (f : list (K * V) -> A -> list (K * V))
    (Hf : forall d a, f d a = match sel a with
                              | Some kv => dict_store kv.1 kv.2 d
                              | None => d
                              end)
    (l : list A) : forall acc,
  NoDup (map fst (acc ++ omap sel l)) ->
  fold_left f l acc = acc ++ omap sel l.
Proof.
  induction l as [|a l IH]; intros acc Hnd; cbn.
  - by rewrite app_nil_r.
  - rewrite Hf. cbn in Hnd. destruct (sel a) as [[k v]|] eqn:Ea.
    + pose proof Hnd as Hnd'.
      rewrite map_app in Hnd. apply NoDup_app in Hnd as (_ & Hdisj & _).
      rewrite dict_store_fresh.
      * cbn. rewrite IH.
        -- by rewrite <- app_assoc.
        -- by rewrite <- app_assoc.
      * intros Hin. apply (Hdisj k Hin). cbn. left.
    + by apply IH.
Qed.

Lemma omap_some_map {A B} (g : A -> B) (l : list A) :
  omap (fun a => Some (g a)) l = map g l.
Proof. induction l as [|a l IH]; cbn; [done|]. by rewrite IH. Qed.

Lemma omap_map {A B C} (f : B -> option C) (g : A -> B) (l : list A) :
  omap f (map g l) = omap (fun a => f (g a)) l.
Proof. induction l as [|a l IH]; cbn; [done|]. rewrite IH. done. Qed.

Lemma map_fst_omap_sublist {A K V} (sel : A -> option (K * V)) (key : A -> K)
    (Hsel : forall a kv, sel a = Some kv -> kv.1 = key a) (l : list A) :
  map fst (omap sel l) `sublist_of` map key l.
Proof.
  induction l as [|a l IH]; cbn; [constructor|].
  destruct (sel a) as [kv|] eqn:Ea.
  - cbn. rewrite (Hsel a kv Ea). by constructor.
  - by constructor.
Qed.

(** With distinct countries, [{country: code for code, country in pairs}]
    holds every pair, swapped, in the order of [pairs]; looking a country
    up gives the code it is paired with. *)
Theorem country_code_spec (pairs : list (Z * string)) :
  NoDup (map snd pairs) ->
  country_code_of pairs = map (fun p => (p.2, p.1)) pairs /\
  (forall country code,
     dict_find country (country_code_of pairs) = Some code <-> (code, country) ∈ pairs).
Proof.
  intros Hnd.
  assert (Heq : country_code_of pairs = map (fun p => (p.2, p.1)) pairs).
  { unfold country_code_of.
    rewrite (fold_store_fresh (fun p : Z * string => Some (p.2, p.1))).
    - by rewrite omap_some_map.
    - by intros d [code country].
    - cbn [app]. rewrite omap_some_map, map_map. done. }
  split; [done|]. intros country code.
  rewrite dict_find_elem.
  - rewrite Heq, !list_elem_of_In, in_map_iff. split.
    + intros ([code' country'] & [= <- <-] & Hin). done.
    + intros Hin. by exists (code, country).
  - rewrite Heq, map_map. done.
Qed.

Lemma country_code_spec_witness :
  NoDup (map snd DIAL_CODES) /\
  dict_find "India" country_code = Some 91%Z.
Proof.
  assert (Hnd : NoDup (map snd DIAL_CODES)) by (apply (bool_decide_unpack _); vm_compute; done).
  split; [exact Hnd|].
  apply (proj2 (country_code_spec DIAL_CODES Hnd)). cbv [DIAL_CODES].
  rewrite list_elem_of_In. cbn. tauto.
Defined.

(** With distinct codes and distinct countries,
    [{code: country.upper() for country, code in country_code.items() if code < 66}]
    keeps, in the order of [pairs], the codes below 66 with the upper-cased
    country name. *)
Theorem upper_below_66_spec (pairs : list (Z * string)) :
  NoDup (map fst pairs) -> NoDup (map snd pairs) ->
  upper_below_66 (country_code_of pairs) =
    omap (fun p => if (p.1 <? 66)%Z then Some (p.1, Index.str_upper p.2) else None) pairs /\
  (forall code name,
     dict_find code (upper_below_66 (country_code_of pairs)) = Some name <->
     exists country, (code, country) ∈ pairs /\ (code < 66)%Z /\
                     name = Index.str_upper country).
Proof.
  intros Hfst Hsnd.
  set (sel := fun p : Z * string =>
                if (p.1 <? 66)%Z then Some (p.1, Index.str_upper p.2) else None).
  assert (Hsub : map fst (omap sel pairs) `sublist_of` map fst pairs).
  { apply map_fst_omap_sublist. intros [code c] kv. unfold sel. cbn.
    destruct (code <? 66)%Z; [by intros [= <-]|done]. }
  assert (Heq : upper_below_66 (country_code_of pairs) = omap sel pairs).
  { rewrite (proj1 (country_code_spec pairs Hsnd)). unfold upper_below_66.
    rewrite (fold_store_fresh (fun p : string * Z =>
               if (p.2 <? 66)%Z then Some (p.2, Index.str_upper p.1) else None)).
    - by rewrite omap_map.
    - intros d [c code]. cbn. by destruct (code <? 66)%Z.
    - rewrite omap_map. eapply sublist_NoDup; [exact Hfst|exact Hsub]. }
  split; [exact Heq|]. intros code name.
  rewrite dict_find_elem.
  - rewrite Heq, list_elem_of_omap. split.
    + intros ([code' c] & Hin & Hs). unfold sel in Hs. cbn in Hs.
      destruct (Z.ltb_spec code' 66); [|done]. injection Hs as <- <-. eauto.
    + intros (c & Hin & Hlt & ->). exists (code, c). split; [done|].
      unfold sel. cbn. by rewrite (proj2 (Z.ltb_lt code 66) Hlt).
  - rewrite Heq. eapply sublist_NoDup; [exact Hfst|exact Hsub].
Qed.

Lemma upper_below_66_spec_witness :
  NoDup (map fst DIAL_CODES) /\ NoDup (map snd DIAL_CODES) /\
  dict_find 55%Z (upper_below_66 country_code) = Some "BRAZIL".
Proof.
  assert (H1 : NoDup (map fst DIAL_CODES)) by (apply (bool_decide_unpack _); vm_compute; done).
  assert (H2 : NoDup (map snd DIAL_CODES)) by (apply (bool_decide_unpack _); vm_compute; done).
  split; [exact H1|]. split; [exact H2|].
  apply (proj2 (upper_below_66_spec DIAL_CODES H1 H2)).
  exists "Brazil". split; [|split; [lia|reflexivity]].
  cbv [DIAL_CODES]. rewrite list_elem_of_In. cbn. tauto.
Defined.

End DictCompFacts.

(* ------------------------------------------------------------------ *)
(** ** [WORD_RE.finditer]: the maximal runs of word characters *)
Module FinditerFacts.
Import Index.
Local Open Scope list_scope.

Lemma list_ascii_snoc (acc : string) (c : ascii) :
  list_ascii_of_string (acc ++ String c "")%string = list_ascii_of_string acc ++ [c].
Proof.
  induction acc as [|a acc IH]; [reflexivity|].
  transitivity (a :: list_ascii_of_string (acc ++ String c "")%string); [reflexivity|].
  by rewrite IH.
Qed.

Lemma string_length_chars (s : string) :
  String.length s = length (list_ascii_of_string s).
Proof. induction s as [|a s IH]; cbn; [done|]. by rewrite IH. Qed.

Lemma snoc_nonempty (acc : string) (c : ascii) : (acc ++ String c "")%string <> "".
Proof. destruct acc; discriminate. Qed.

Section Scan.
Variable line : string.
Local Abbreviation L := (list_ascii_of_string line).

Lemma drop_cons_lookup pos c s :
  drop pos L = c :: s -> L !! pos = Some c /\ drop (S pos) L = s.
Proof.
  intros H. split.
  - rewrite <- (Nat.add_0_r pos), <- lookup_drop, H. done.
  - replace (S pos) with (pos + 1) by lia. by rewrite <- drop_drop, H.
Qed.

(** Every match is a non-empty run of word characters found at its
    position in the line, neither preceded nor followed by a word
    character. *)
Lemma finditer_go_sound (s : string) : forall pos start acc,
  drop pos L = list_ascii_of_string s ->
  Forall (fun c => is_word_char c = true) (list_ascii_of_string acc) ->
  (acc <> "" -> start + length (list_ascii_of_string acc) = pos /\
     take (length (list_ascii_of_string acc)) (drop start L) = list_ascii_of_string acc /\
     (start = 0 \/ exists c, L !! pred start = Some c /\ is_word_char c = false)) ->
  (acc = "" -> pos = 0 \/ exists c, L !! pred pos = Some c /\ is_word_char c = false) ->
  forall st w, (st, w) ∈ finditer_go pos start acc s ->
    w <> "" /\
    Forall (fun c => is_word_char c = true) (list_ascii_of_string w) /\
    take (length (list_ascii_of_string w)) (drop st L) = list_ascii_of_string w /\
    (st = 0 \/ exists c, L !! pred st = Some c /\ is_word_char c = false) /\
    (forall c, L !! (st + length (list_ascii_of_string w)) = Some c -> is_word_char c = false).
Proof.
  induction s as [|c s IH]; intros pos start acc Hdrop Hacc Hne He st w Hm; cbn in Hm.
  - destruct (String.eqb_spec acc "") as [->|Hacc_ne].
    + by apply not_elem_of_nil in Hm.
    + apply list_elem_of_singleton in Hm. injection Hm as -> ->.
      destruct (Hne Hacc_ne) as (Hlen & Htake & Hbef).
      split; [done|]. split; [done|]. split; [done|]. split; [done|].
      intros c Hc. rewrite Hlen in Hc.
      assert (length L <= pos).
      { pose proof (f_equal length Hdrop) as Hl. rewrite length_drop in Hl. cbn in Hl. lia. }
      rewrite lookup_ge_None_2 in Hc by lia. done.
  - destruct (drop_cons_lookup _ _ _ Hdrop) as [Hc Hdrop'].
    destruct (is_word_char c) eqn:Ew.
    + destruct (String.eqb_spec acc "") as [->|Hacc_ne].
      * eapply (IH (S pos) pos (String c "")); [done| | |done|done].
        -- cbn. by repeat constructor.
        -- intros _. cbn. split; [lia|]. split; [|by apply He].
           rewrite Hdrop. done.
      * eapply (IH (S pos) start (acc ++ String c "")%string); [done| | | |exact Hm].
        -- rewrite list_ascii_snoc. apply Forall_app. split; [done|]. by repeat constructor.
        -- intros _. destruct (Hne Hacc_ne) as (Hlen & Htake & Hbef).
           rewrite list_ascii_snoc, length_app. cbn [length].
           split; [lia|]. split; [|done].
           rewrite <- take_take_drop, Htake, drop_drop, Hlen, Hdrop. done.
        -- intros H. by apply snoc_nonempty in H.
    + apply elem_of_app in Hm as [Hm|Hm].
      * destruct (String.eqb_spec acc "") as [->|Hacc_ne].
        -- by apply not_elem_of_nil in Hm.
        -- apply list_elem_of_singleton in Hm. injection Hm as -> ->.
           destruct (Hne Hacc_ne) as (Hlen & Htake & Hbef).
           split; [done|]. split; [done|]. split; [done|]. split; [done|].
           intros c' Hc'. rewrite Hlen, Hc in Hc'. congruence.
      * eapply (IH (S pos) (S pos) ""); [done|constructor|done| |exact Hm].
        intros _. right. exists c. done.
Qed.

(** Every word character of the line lies inside some match. *)
Lemma finditer_go_cover (s : string) : forall pos start acc,
  drop pos L = list_ascii_of_string s ->
  (acc <> "" -> start + length (list_ascii_of_string acc) = pos) ->
  forall i c, L !! i = Some c -> is_word_char c = true ->
  pos <= i \/ (acc <> "" /\ start <= i < pos) ->
  exists st w, (st, w) ∈ finditer_go pos start acc s /\
               st <= i < st + length (list_ascii_of_string w).
Proof.
  induction s as [|c0 s IH]; intros pos start acc Hdrop Hlen i c Hi Hw Hrange; cbn.
  - assert (length L <= pos).
    { pose proof (f_equal length Hdrop) as Hl. rewrite length_drop in Hl. cbn in Hl. lia. }
    apply lookup_lt_Some in Hi.
    destruct Hrange as [|(Hne & Hr)]; [lia|].
    destruct (String.eqb_spec acc "") as [->|_]; [done|].
    exists start, acc. split; [by left|]. specialize (Hlen Hne). lia.
  - destruct (drop_cons_lookup _ _ _ Hdrop) as [Hc0 Hdrop'].
    destruct (is_word_char c0) eqn:Ew.
    + destruct (String.eqb_spec acc "") as [->|Hacc_ne].
      * apply (IH (S pos) pos (String c0 "") Hdrop' (fun _ => ltac:(cbn; lia)) i c Hi Hw).
        destruct Hrange as [Hr|(Hne & _)]; [|done].
        destruct (decide (i = pos)) as [->|]; [right; split; [done|lia]|left; lia].
      * assert (Hl : start + length (list_ascii_of_string acc) = pos) by (by apply Hlen).
        assert (Hlen' : (acc ++ String c0 "")%string <> "" ->
                  start + length (list_ascii_of_string (acc ++ String c0 "")%string) = S pos)
          by (intros _; rewrite list_ascii_snoc, length_app; cbn; lia).
        apply (IH (S pos) start (acc ++ String c0 "")%string Hdrop' Hlen' i c Hi Hw).
        destruct Hrange as [Hr|(_ & Hr)].
        -- destruct (decide (i = pos)) as [->|].
           ++ right. split; [apply snoc_nonempty|lia].
           ++ left. lia.
        -- right. split; [apply snoc_nonempty|lia].
    + destruct (decide (acc <> "" /\ start <= i < pos)) as [(Hne & Hr)|Hout].
      * exists start, acc. split.
        -- apply elem_of_app. left.
           destruct (String.eqb_spec acc "") as [->|]; [done|by left].
        -- specialize (Hlen Hne). lia.
      * assert (S pos <= i).
        { destruct Hrange as [Hr|Hr]; [|done].
          destruct (decide (i = pos)) as [->|]; [|lia]. congruence. }
        destruct (IH (S pos) (S pos) "" Hdrop' (fun H => ltac:(done)) i c Hi Hw (or_introl H))
          as (st & w & Hm & Hst).
        exists st, w. split; [|done]. apply elem_of_app. by right.
Qed.

End Scan.

(** [WORD_RE.finditer(line)] with [WORD_RE = re.compile(r'\w+')] (ASCII
    word characters): every match [(start, word)] is a non-empty run of
    word characters that stands at [start] in the line, with no word
    character right before or right after it; and every word character of
    the line lies inside a match. *)
Theorem finditer_maximal_runs (line : string) :
  (forall start w, (start, w) ∈ finditer line ->
     w <> "" /\
     Forall (fun c => is_word_char c = true) (list_ascii_of_string w) /\
     take (String.length w) (drop start (list_ascii_of_string line))
       = list_ascii_of_string w /\
     (start = 0 \/ exists c, list_ascii_of_string line !! pred start = Some c /\
                             is_word_char c = false) /\
     (forall c, list_ascii_of_string line !! (start + String.length w) = Some c ->
                is_word_char c = false)) /\
  (forall i c, list_ascii_of_string line !! i = Some c -> is_word_char c = true ->
     exists start w, (start, w) ∈ finditer line /\ start <= i < start + String.length w).
Proof.
  split.
  - intros start w Hm. rewrite !string_length_chars.
    eapply (finditer_go_sound line line 0 0 ""); [done|constructor|done| |exact Hm].
    intros _. by left.
  - intros i c Hi Hw.
    destruct (finditer_go_cover line line 0 0 "" eq_refl (fun H => ltac:(done)) i c Hi Hw
                (or_introl (Nat.le_0_l i))) as (st & w & Hm & Hr).
    exists st, w. rewrite string_length_chars. done.
Qed.

Lemma finditer_maximal_runs_witness :
  ((3, "be") ∈ finditer "to be") /\
  (take (String.length "be") (drop 3 (list_ascii_of_string "to be"))
     = list_ascii_of_string "be").
Proof.
  assert (H : (3, "be") ∈ finditer "to be")
    by (apply (bool_decide_unpack _); vm_compute; reflexivity).
  split; [exact H|].
  exact (proj1 (proj2 (proj2 (proj1 (finditer_maximal_runs "to be") 3 "be" H)))).
Defined.

End FinditerFacts.

(* ------------------------------------------------------------------ *)
(** ** The word index: what the three scripts print *)
Module WordIndexFacts.
Import Index IndexSpec IndexFacts.
Local Open Scope list_scope.

Lemma find_add_location w w' l idx :
  find_locations w (add_location w' l idx) =
    if String.eqb w w' then find_locations w idx ++ [l] else find_locations w idx.
Proof.
  induction idx as [|[w'' ls] idx IH]; cbn.
  - by destruct (String.eqb w w').
  - destruct (String.eqb_spec w' w'') as [->|Hne]; cbn.
    + by destruct (String.eqb_spec w w'').
    + rewrite IH. destruct (String.eqb_spec w w'') as [->|]; [|done].
      by rewrite (proj2 (String.eqb_neq w'' w')) by congruence.
Qed.

Lemma find_add_matches w n ms : forall idx,
  find_locations w (add_matches n ms idx) =
    find_locations w idx ++
    omap (fun m : nat * string => if String.eqb w m.2 then Some (n, S m.1) else None) ms.
Proof.
  unfold add_matches.
  induction ms as [|[st w'] ms IH]; intros idx; cbn; [by rewrite app_nil_r|].
  rewrite IH, find_add_location. cbn.
  destruct (String.eqb w w'); [|done]. by rewrite <- app_assoc.
Qed.

Lemma find_add_lines w lines : forall n idx,
  find_locations w (add_lines n lines idx) =
    find_locations w idx ++
    concat (imap (fun i line =>
      omap (fun m : nat * string => if String.eqb w m.2 then Some (n + i, S m.1) else None)
        (finditer line)) lines).
Proof.
  induction lines as [|line lines IH]; intros n idx; cbn [add_lines].
  - by rewrite app_nil_r.
  - rewrite IH, find_add_matches, imap_cons. cbn [concat].
    rewrite <- app_assoc, Nat.add_0_r. do 2 f_equal. f_equal.
    apply imap_ext. intros i line' _. cbn.
    by rewrite Nat.add_succ_r.
Qed.

Lemma keys_add_location x w l idx :
  x ∈ map fst (add_location w l idx) <-> x = w \/ x ∈ map fst idx.
Proof.
  induction idx as [|[w' ls] idx IH]; cbn.
  - rewrite list_elem_of_singleton. split; [by left|]. intros [->|H]; [done|].
    by apply not_elem_of_nil in H.
  - destruct (String.eqb_spec w w') as [->|Hne]; cbn; rewrite !elem_of_cons.
    + naive_solver.
    + rewrite IH. naive_solver.
Qed.

Lemma nodup_add_location w l idx :
  NoDup (map fst idx) -> NoDup (map fst (add_location w l idx)).
Proof.
  induction idx as [|[w' ls] idx IH]; intros Hnd; cbn.
  - apply NoDup_singleton.
  - apply NoDup_cons in Hnd as [Hn Hnd].
    destruct (String.eqb_spec w w') as [->|Hne]; cbn; apply NoDup_cons.
    + done.
    + split; [|by apply IH]. rewrite keys_add_location. naive_solver.
Qed.

Lemma keys_add_lines x lines : forall n idx,
  (x ∈ map fst (add_lines n lines idx) <->
   x ∈ map fst idx \/
   exists i line st, lines !! i = Some line /\ (st, x) ∈ finditer line) /\
  (NoDup (map fst idx) -> NoDup (map fst (add_lines n lines idx))).
Proof.
  induction lines as [|line lines IH]; intros n idx; cbn [add_lines].
  - split; [|done]. split; [by left|]. intros [H|(i & line & st & H & _)]; [done|].
    by rewrite lookup_nil in H.
  - assert (Hm : forall ms idx',
      (x ∈ map fst (add_matches n ms idx') <->
       x ∈ map fst idx' \/ exists st, (st, x) ∈ ms) /\
      (NoDup (map fst idx') -> NoDup (map fst (add_matches n ms idx')))).
    { unfold add_matches. induction ms as [|[st w] ms IHm]; intros idx'; cbn.
      - split; [|done]. split; [by left|]. intros [H|(st & H)]; [done|].
        by apply not_elem_of_nil in H.
      - destruct (IHm (add_location w (n, S st) idx')) as [IHx IHd].
        split.
        + rewrite IHx, keys_add_location. split.
          * intros [[->|H]|(st' & H)]; [right; exists st; by left|by left|].
            right. exists st'. by right.
          * intros [H|(st' & H)]; [left; by right|].
            apply elem_of_cons in H as [[= -> ->]|H]; [by left; left|].
            right. by exists st'.
        + intros Hnd. apply IHd. by apply nodup_add_location. }
    destruct (IH (S n) (add_matches n (finditer line) idx)) as [IHx IHd].
    destruct (Hm (finditer line) idx) as [Hmx Hmd].
    split.
    + rewrite IHx, Hmx. split.
      * intros [[H|(st & H)]|(i & line' & st & Hi & H)]; [by left| |].
        -- right. by exists 0, line, st.
        -- right. by exists (S i), line', st.
      * intros [H|(i & line' & st & Hi & H)]; [by left; left|].
        destruct i as [|i]; cbn in Hi.
        -- injection Hi as <-. left. right. by exists st.
        -- right. by exists i, line', st.
    + intros Hnd. by apply IHd, Hmd.
Qed.

(** The order [sorted(..., key=str.upper)] sorts by. *)
Lemma str_leb_total s t : str_leb s t = false -> str_leb t s = true.
Proof.
  revert t. induction s as [|a s IH]; intros [|b t]; cbn [str_leb]; try done.
  intros H.
  destruct (Nat.ltb_spec (nat_of_ascii a) (nat_of_ascii b)); [done|].
  destruct (Nat.ltb_spec (nat_of_ascii b) (nat_of_ascii a)); [done|].
  by apply IH.
Qed.

Lemma insert_by_upper_perm w ws : insert_by_upper w ws ≡ₚ w :: ws.
Proof.
  induction ws as [|w' ws IH]; cbn; [done|].
  destruct (str_leb (str_upper w') (str_upper w)); [|done].
  rewrite IH. apply perm_swap.
Qed.

Lemma insert_by_upper_sorted w ws :
  Sorted (fun a b => str_leb (str_upper a) (str_upper b) = true) ws ->
  Sorted (fun a b => str_leb (str_upper a) (str_upper b) = true) (insert_by_upper w ws).
Proof.
  induction ws as [|w' ws IH]; intros Hs; cbn; [by repeat constructor|].
  inversion Hs as [|? ? Hs' Hhd]; subst.
  destruct (str_leb (str_upper w') (str_upper w)) eqn:E.
  - constructor; [by apply IH|].
    destruct ws as [|w'' ws]; cbn; [by constructor|].
    inversion Hhd; subst.
    destruct (str_leb (str_upper w'') (str_upper w)); by constructor.
  - constructor; [done|]. constructor. by apply str_leb_total.
Qed.

Lemma sorted_upper_spec ws :
  sorted_upper ws ≡ₚ ws /\
  Sorted (fun a b => str_leb (str_upper a) (str_upper b) = true) (sorted_upper ws).
Proof.
  unfold sorted_upper.
  assert (H : forall acc,
    Sorted (fun a b => str_leb (str_upper a) (str_upper b) = true) acc ->
    fold_left (fun acc w => insert_by_upper w acc) ws acc ≡ₚ ws ++ acc /\
    Sorted (fun a b => str_leb (str_upper a) (str_upper b) = true)
      (fold_left (fun acc w => insert_by_upper w acc) ws acc)).
  { induction ws as [|w ws IH]; intros acc Hs; cbn; [done|].
    destruct (IH (insert_by_upper w acc)) as [Hp Hs'];
      [by apply insert_by_upper_sorted|].
    split; [|done]. rewrite Hp, insert_by_upper_perm.
    by rewrite <- Permutation_middle. }
  destruct (H [] ltac:(constructor)) as [Hp Hs].
  rewrite app_nil_r in Hp. done.
Qed.

(** Whichever of Examples 3-2, 3-4 and 3-5 runs, the line printed for a
    word [w] lists, in reading order, the [(line_no, column_no)] of every
    match of [w] in the file: line numbers from 1, columns from 1. *)
Theorem printed_locations (lines : list string) (out : list (string * list loc)) :
  (example_3_2 lines).1 = Ret out \/ (example_3_4 lines).1 = Ret out \/
  (example_3_5 lines).1 = Ret out ->
  forall w ls, (w, ls) ∈ out ->
  ls = concat (imap (fun i line =>
         omap (fun m : nat * string =>
                 if String.eqb w m.2 then Some (S i, S m.1) else None)
           (finditer line)) lines).
Proof.
  intros Hout.
  assert (Hp : out = printed (word_index lines)).
  { destruct (example_3_2_ok lines) as (s2 & E2 & _).
    destruct (example_3_4_ok lines) as (s4 & E4 & _).
    destruct (example_3_5_ok lines) as (s5 & E5 & _).
    rewrite E2, E4, E5 in Hout. cbn in Hout. naive_solver. }
  subst out. intros w ls Hin.
  unfold printed in Hin. rewrite list_elem_of_In, in_map_iff in Hin.
  destruct Hin as (w' & [= <- <-] & _).
  unfold word_index. rewrite find_add_lines. cbn [find_locations app].
  reflexivity.
Qed.

Lemma printed_locations_witness :
  (example_3_2 ["to be"; "or not to be"]).1 =
    Ret [("be", [(1, 4); (2, 11)]); ("not", [(2, 4)]); ("or", [(2, 1)]);
         ("to", [(1, 1); (2, 8)])] /\
  [(1, 4); (2, 11)] =
    concat (imap (fun i line =>
      omap (fun m : nat * string =>
              if String.eqb "be" m.2 then Some (S i, S m.1) else None)
        (finditer line)) ["to be"; "or not to be"]).
Proof.
  assert (H : (example_3_2 ["to be"; "or not to be"]).1 =
    Ret [("be", [(1, 4); (2, 11)]); ("not", [(2, 4)]); ("or", [(2, 1)]);
         ("to", [(1, 1); (2, 8)])]) by (vm_compute; reflexivity).
  split; [exact H|].
  apply (printed_locations _ _ (or_introl H)). by left.
Defined.

(** The words printed are each word matched in the file, once, in
    [sorted(..., key=str.upper)] order. *)
Theorem printed_words (lines : list string) (out : list (string * list loc)) :
  (example_3_2 lines).1 = Ret out \/ (example_3_4 lines).1 = Ret out \/
  (example_3_5 lines).1 = Ret out ->
  NoDup (map fst out) /\
  Sorted (fun a b => str_leb (str_upper a) (str_upper b) = true) (map fst out) /\
  (forall w, w ∈ map fst out <->
     exists i line st, lines !! i = Some line /\ (st, w) ∈ finditer line).
Proof.
  intros Hout.
  assert (Hp : out = printed (word_index lines)).
  { destruct (example_3_2_ok lines) as (s2 & E2 & _).
    destruct (example_3_4_ok lines) as (s4 & E4 & _).
    destruct (example_3_5_ok lines) as (s5 & E5 & _).
    rewrite E2, E4, E5 in Hout. cbn in Hout. naive_solver. }
  subst out.
  assert (Hfst : map fst (printed (word_index lines)) =
                 sorted_upper (map fst (word_index lines))).
  { unfold printed. rewrite map_map. apply map_id. }
  rewrite Hfst.
  destruct (sorted_upper_spec (map fst (word_index lines))) as [Hperm Hsorted].
  split; [|split; [done|]].
  - rewrite Hperm. apply (proj2 (keys_add_lines "" lines 1 [])). constructor.
  - intros w. rewrite Hperm. unfold word_index.
    rewrite (proj1 (keys_add_lines w lines 1 [])). cbn.
    split; [intros [H|H]; [by apply not_elem_of_nil in H|done]|by right].
Qed.

Lemma printed_words_witness :
  (example_3_5 ["b a"; "A"]).1 = Ret [("a", [(1, 3)]); ("A", [(2, 1)]); ("b", [(1, 1)])] /\
  Sorted (fun a b => str_leb (str_upper a) (str_upper b) = true) ["a"; "A"; "b"].
Proof.
  assert (H : (example_3_5 ["b a"; "A"]).1 =
                Ret [("a", [(1, 3)]); ("A", [(2, 1)]); ("b", [(1, 1)])])
    by (vm_compute; reflexivity).
  split; [exact H|].
  exact (proj1 (proj2 (printed_words _ _ (or_intror (or_intror H))))).
Defined.

End WordIndexFacts.

(* ------------------------------------------------------------------ *)
(** ** [deck[position]] with an integer position *)
Module DeckIndexFacts.
Import Deck DeckSeqFacts.

(** For [0 <= i < len(deck)], [deck[i]] and [deck[i - len(deck)]] are both
    the card at position [i] of [_cards]; any position [>= len(deck)] or
    [< -len(deck)] raises [IndexError]; the deck is never changed. *)
Theorem getitem_positions (d : FrenchDeck) (i : nat) (c : Card) (p : Z) :
  (_cards d !! i = Some c ->
   __getitem__ (Z.of_nat i) d = (Ret c, d) /\
   __getitem__ (Z.of_nat i - Z.of_nat (List.length (_cards d)))%Z d = (Ret c, d)) /\
  ((Z.of_nat (List.length (_cards d)) <= p \/ p < - Z.of_nat (List.length (_cards d)))%Z ->
   __getitem__ p d = (Raise IndexError, d)).
Proof.
  split.
  - intros Hc. pose proof (lookup_lt_Some _ _ _ Hc) as Hlt.
    unfold __getitem__. rewrite py_list_getitem_nat, Hc. split; [done|].
    unfold py_list_getitem.
    replace (Z.of_nat i - Z.of_nat (List.length (_cards d)) <? 0)%Z with true
      by (symmetry; apply Z.ltb_lt; lia).
    replace (Z.of_nat i - Z.of_nat (List.length (_cards d)) + Z.of_nat (List.length (_cards d)))%Z
      with (Z.of_nat i) by lia.
    replace ((0 <=? Z.of_nat i)%Z && (Z.of_nat i <? Z.of_nat (List.length (_cards d)))%Z)%bool
      with true by (symmetry; apply andb_true_intro; split; [apply Z.leb_le|apply Z.ltb_lt]; lia).
    by rewrite Nat2Z.id, Hc.
  - intros Hp. unfold __getitem__, py_list_getitem. f_equal.
    destruct (Z.ltb_spec p 0).
    + replace ((0 <=? p + Z.of_nat (List.length (_cards d)))%Z &&
               (p + Z.of_nat (List.length (_cards d)) <? Z.of_nat (List.length (_cards d)))%Z)%bool
        with false; [done|].
      symmetry. apply andb_false_intro1. apply Z.leb_gt. lia.
    + replace ((0 <=? p)%Z && (p <? Z.of_nat (List.length (_cards d)))%Z)%bool
        with false; [done|].
      symmetry. apply andb_false_intro2. apply Z.ltb_ge. lia.
Qed.

Lemma getitem_positions_witness :
  _cards __init__ !! 51 = Some (mkCard "A" "hearts") /\
  __getitem__ (-1)%Z __init__ = (Ret (mkCard "A" "hearts"), __init__) /\
  __getitem__ 52%Z __init__ = (Raise IndexError, __init__).
Proof.
  assert (Hc : _cards __init__ !! 51 = Some (mkCard "A" "hearts")) by reflexivity.
  split; [exact Hc|]. split.
  - exact (proj2 (proj1 (getitem_positions __init__ 51 _ 0%Z) Hc)).
  - apply (proj2 (getitem_positions __init__ 51 (mkCard "A" "hearts") 52%Z)).
    left. vm_compute. discriminate.
Defined.

End DeckIndexFacts.
